(** * Dice roller: placement, lifecycle and render/physics sync

    Shallow embedding of [src/dnd-roller/main.js].

    The module state of the script (the physics world, the scene, the
    live-dice array, the stage top, the die template, the pending timers)
    becomes one [State] record that every handler threads explicitly.
    Objects that the script shares by reference (a rigid body is held by
    the world, by its die record and by its timeout closure; a visual is
    held by the scene and by its die record) live in two stores indexed
    by the identifiers the libraries hand out at creation.

    JavaScript numbers are modelled by exact rationals: the properties
    studied here are about comparisons, clamping and bookkeeping, so
    rounding, NaN and the infinities stay outside the model. *)

From Stdlib Require Import String QArith Qabs List Bool Lia Lqa ZArith.
Import ListNotations.
Open Scope Q_scope.

(** ** Numbers as the script uses them *)

Module Num.

(** [x < y] *)
Definition ltb (x y : Q) : bool :=
  match x ?= y with Lt => true | _ => false end.

(** [x <= y] *)
Definition leb (x y : Q) : bool := Qle_bool x y.

(** A number is falsy exactly when it is zero. *)
Definition truthy (x : Q) : bool := negb (Qeq_bool x 0).

(** [x || d] on numbers. *)
Definition or_else (x d : Q) : Q := if truthy x then x else d.

(** [Math.max(x, y)] and [Math.min(x, y)]. *)
Definition max (x y : Q) : Q := if ltb x y then y else x.
Definition min (x y : Q) : Q := if ltb y x then y else x.

(** [Math.abs(x)] *)
Definition abs (x : Q) : Q := Qabs x.

(** [Math.sqrt(s) < r], decided without leaving the rationals: the root
    of a non-negative [s] is below [r] exactly when [r] is positive and
    [s] is below its square. *)
Definition sqrt_lt (s r : Q) : bool :=
  leb 0 s && ltb 0 r && ltb s (r * r).

End Num.

(** ** Vectors and orientations *)

Record Vec3 := mkVec3 { vx : Q; vy : Q; vz : Q }.

Record Quat := mkQuat { qx : Q; qy : Q; qz : Q; qw : Q }.

(** [new THREE.Quaternion()] *)
Definition quat_identity : Quat := mkQuat 0 0 0 1.

(** [v.y = y] on a vector object. *)
Definition set_vy (v : Vec3) (y : Q) : Vec3 := mkVec3 (vx v) y (vz v).

(** [a.clone().add(d.multiplyScalar(k))] *)
Definition add_scaled (a d : Vec3) (k : Q) : Vec3 :=
  mkVec3 (vx a + vx d * k) (vy a + vy d * k) (vz a + vz d * k).

(** An orientation is either a quaternion given by its four components
    or the result of [setFromEuler(k * Math.PI / 2, 0, 0)], a rotation
    about X by a whole number of quarter turns, whose components are
    irrational and are therefore kept symbolic. *)
Inductive Orientation :=
| OQuat (q : Quat)
| OEulerX (quarters : Z).

Definition cos_quarter (k : Z) : Q :=
  match (k mod 4)%Z with 0%Z => 1 | 2%Z => -1 | _ => 0 end.

Definition sin_quarter (k : Z) : Q :=
  match (k mod 4)%Z with 1%Z => 1 | 3%Z => -1 | _ => 0 end.

(** World normal of a [CANNON.Plane] carried by a body with the given
    orientation: the local +Z axis rotated by the orientation (for a
    quaternion, of unit length). *)
Definition plane_normal (o : Orientation) : Vec3 :=
  match o with
  | OQuat q =>
      mkVec3 (2 * (qx q * qz q + qw q * qy q))
             (2 * (qy q * qz q - qw q * qx q))
             (1 - 2 * (qx q * qx q + qy q * qy q))
  | OEulerX k => mkVec3 0 (- sin_quarter k) (cos_quarter k)
  end.

(** ** Rigid bodies (cannon-es) *)

Inductive Shape :=
| Box (halfExtents : Vec3)
| Plane
| Trimesh (vertices : list Q) (indices : list nat).

Record Body := mkBody {
  b_mass : Q;
  b_material : bool;          (* [defaultMaterial] attached *)
  b_shapes : list Shape;
  b_position : Vec3;
  b_quaternion : Orientation;
  b_velocity : Vec3;
  b_angularVelocity : Vec3;
  b_linearDamping : Q;
  b_angularDamping : Q;
  b_allowSleep : bool;
  b_sleepSpeedLimit : Q;
  b_sleepTimeLimit : Q
}.

Definition vec_zero : Vec3 := mkVec3 0 0 0.

(** [new CANNON.Body({ mass, material })] with the library's defaults. *)
Definition new_body (mass : Q) (material : bool) : Body :=
  mkBody mass material [] vec_zero (OQuat quat_identity) vec_zero vec_zero
         0.01 0.01 true 0.1 1.

Definition body_addShape (s : Shape) (b : Body) : Body :=
  mkBody (b_mass b) (b_material b) (b_shapes b ++ [s]) (b_position b)
         (b_quaternion b) (b_velocity b) (b_angularVelocity b)
         (b_linearDamping b) (b_angularDamping b) (b_allowSleep b)
         (b_sleepSpeedLimit b) (b_sleepTimeLimit b).

Definition body_set_material (m : bool) (b : Body) : Body :=
  mkBody (b_mass b) m (b_shapes b) (b_position b)
         (b_quaternion b) (b_velocity b) (b_angularVelocity b)
         (b_linearDamping b) (b_angularDamping b) (b_allowSleep b)
         (b_sleepSpeedLimit b) (b_sleepTimeLimit b).

Definition body_set_position (p : Vec3) (b : Body) : Body :=
  mkBody (b_mass b) (b_material b) (b_shapes b) p
         (b_quaternion b) (b_velocity b) (b_angularVelocity b)
         (b_linearDamping b) (b_angularDamping b) (b_allowSleep b)
         (b_sleepSpeedLimit b) (b_sleepTimeLimit b).

Definition body_set_quaternion (o : Orientation) (b : Body) : Body :=
  mkBody (b_mass b) (b_material b) (b_shapes b) (b_position b)
         o (b_velocity b) (b_angularVelocity b)
         (b_linearDamping b) (b_angularDamping b) (b_allowSleep b)
         (b_sleepSpeedLimit b) (b_sleepTimeLimit b).

Definition body_set_velocity (v : Vec3) (b : Body) : Body :=
  mkBody (b_mass b) (b_material b) (b_shapes b) (b_position b)
         (b_quaternion b) v (b_angularVelocity b)
         (b_linearDamping b) (b_angularDamping b) (b_allowSleep b)
         (b_sleepSpeedLimit b) (b_sleepTimeLimit b).

(** The damping, spin and sleep settings [spawnDie] writes in one go. *)
Definition body_set_dynamics (lin ang : Q) (w : Vec3) (sleep : bool)
    (speed time : Q) (b : Body) : Body :=
  mkBody (b_mass b) (b_material b) (b_shapes b) (b_position b)
         (b_quaternion b) (b_velocity b) w lin ang sleep speed time.

(** ** Visuals (three.js) *)

Record Mesh := mkMesh {
  m_position : Vec3;
  m_quaternion : Orientation;
  m_size : Orientation -> Vec3;  (* extent of [Box3.setFromObject] under an orientation *)
  m_geometry : bool               (* the root object itself carries a [geometry] *)
}.

Definition mesh_set_position (p : Vec3) (m : Mesh) : Mesh :=
  mkMesh p (m_quaternion m) (m_size m) (m_geometry m).

Definition mesh_set_quaternion (o : Orientation) (m : Mesh) : Mesh :=
  mkMesh (m_position m) o (m_size m) (m_geometry m).

(** The loaded die prototype: the bounding-box extent of a clone under a
    given orientation, whether its root carries geometry, and the
    half-height cached in [userData] at load time. *)
Record Template := mkTemplate {
  t_size : Orientation -> Vec3;
  t_geometry : bool;
  t_halfHeight : Q
}.

(** ** Stores and collections *)

(** Functional update of a store at one identifier. *)
Definition upd {A : Type} (f : nat -> A) (k : nat) (v : A) : nat -> A :=
  fun i => if Nat.eqb i k then v else f i.

(** [a.indexOf(x)] followed by [a.splice(idx, 1)] when found. *)
Fixpoint remove_first {A : Type} (eqb : A -> A -> bool) (x : A) (l : list A)
  : list A :=
  match l with
  | [] => []
  | y :: t => if eqb x y then t else y :: remove_first eqb x t
  end.

(** [World.addBody]: a body already present is not added again. *)
Definition addBody (b : nat) (l : list nat) : list nat :=
  if existsb (Nat.eqb b) l then l else l ++ [b].

(** [World.removeBody] *)
Definition removeBody (b : nat) (l : list nat) : list nat :=
  remove_first Nat.eqb b l.

(** Children of the scene: the stage root and the dice visuals (the
    lights, which no handler touches again, are left out). *)
Inductive SceneNode :=
| NStage
| NDie (mesh : nat).

Definition node_eqb (a b : SceneNode) : bool :=
  match a, b with
  | NStage, NStage => true
  | NDie m, NDie n => Nat.eqb m n
  | _, _ => false
  end.

(** [Object3D.add]: the object is detached from its parent first. *)
Definition scene_add (n : SceneNode) (l : list SceneNode) : list SceneNode :=
  remove_first node_eqb n l ++ [n].

(** [Object3D.remove] *)
Definition scene_remove (n : SceneNode) (l : list SceneNode) : list SceneNode :=
  remove_first node_eqb n l.

(** One entry of [diceObjects]. *)
Record Die := mkDie {
  d_mesh : nat;
  d_body : nat;
  d_born : Q;
  d_halfHeight : Q
}.

(** A pending [setTimeout] callback: the instant from which it may run
    and the body its closure captured. *)
Record Timer := mkTimer {
  t_due : Q;
  t_body : nat
}.

Inductive LogMsg :=
| WarnTemplateNotLoaded
| LogSpawning (position : Vec3) (velocity : option Vec3)
| LogStageTop (y : Q)
| WarnTrimeshSkipped
| LogStageLoaded
| ErrStageLoad
| LogTemplateSize (size : Vec3)
| LogTemplateLoaded
| ErrTemplateLoad
| WarnClickIgnored
| LogRollClicked.

Record State := mkState {
  console : list LogMsg;
  stageTopY : Q;
  diceTemplate : option Template;
  diceObjects : list Die;
  world_bodies : list nat;       (* [world.bodies] *)
  bodies : nat -> Body;          (* store of rigid bodies *)
  body_counter : nat;            (* [Body.idCounter] *)
  scene : list SceneNode;        (* [scene.children] *)
  meshes : nat -> Mesh;          (* store of visuals *)
  mesh_counter : nat;
  timers : list Timer;
  clock_now : Q;                 (* milliseconds *)
  world_steps : nat              (* calls made to [world.step] so far *)
}.

(** Field updates of the module state. *)

Definition log (m : LogMsg) (st : State) : State :=
  mkState (console st ++ [m]) (stageTopY st) (diceTemplate st) (diceObjects st)
          (world_bodies st) (bodies st) (body_counter st) (scene st)
          (meshes st) (mesh_counter st) (timers st) (clock_now st) (world_steps st).

Definition set_stageTopY (y : Q) (st : State) : State :=
  mkState (console st) y (diceTemplate st) (diceObjects st)
          (world_bodies st) (bodies st) (body_counter st) (scene st)
          (meshes st) (mesh_counter st) (timers st) (clock_now st) (world_steps st).

Definition set_diceTemplate (t : option Template) (st : State) : State :=
  mkState (console st) (stageTopY st) t (diceObjects st)
          (world_bodies st) (bodies st) (body_counter st) (scene st)
          (meshes st) (mesh_counter st) (timers st) (clock_now st) (world_steps st).

Definition set_diceObjects (l : list Die) (st : State) : State :=
  mkState (console st) (stageTopY st) (diceTemplate st) l
          (world_bodies st) (bodies st) (body_counter st) (scene st)
          (meshes st) (mesh_counter st) (timers st) (clock_now st) (world_steps st).

Definition set_world_bodies (l : list nat) (st : State) : State :=
  mkState (console st) (stageTopY st) (diceTemplate st) (diceObjects st)
          l (bodies st) (body_counter st) (scene st)
          (meshes st) (mesh_counter st) (timers st) (clock_now st) (world_steps st).

Definition set_bodies (h : nat -> Body) (st : State) : State :=
  mkState (console st) (stageTopY st) (diceTemplate st) (diceObjects st)
          (world_bodies st) h (body_counter st) (scene st)
          (meshes st) (mesh_counter st) (timers st) (clock_now st) (world_steps st).

Definition set_scene (l : list SceneNode) (st : State) : State :=
  mkState (console st) (stageTopY st) (diceTemplate st) (diceObjects st)
          (world_bodies st) (bodies st) (body_counter st) l
          (meshes st) (mesh_counter st) (timers st) (clock_now st) (world_steps st).

Definition set_meshes (h : nat -> Mesh) (st : State) : State :=
  mkState (console st) (stageTopY st) (diceTemplate st) (diceObjects st)
          (world_bodies st) (bodies st) (body_counter st) (scene st)
          h (mesh_counter st) (timers st) (clock_now st) (world_steps st).

Definition set_timers (l : list Timer) (st : State) : State :=
  mkState (console st) (stageTopY st) (diceTemplate st) (diceObjects st)
          (world_bodies st) (bodies st) (body_counter st) (scene st)
          (meshes st) (mesh_counter st) l (clock_now st) (world_steps st).

Definition set_clock_now (t : Q) (st : State) : State :=
  mkState (console st) (stageTopY st) (diceTemplate st) (diceObjects st)
          (world_bodies st) (bodies st) (body_counter st) (scene st)
          (meshes st) (mesh_counter st) (timers st) t (world_steps st).

Definition set_world_steps (n : nat) (st : State) : State :=
  mkState (console st) (stageTopY st) (diceTemplate st) (diceObjects st)
          (world_bodies st) (bodies st) (body_counter st) (scene st)
          (meshes st) (mesh_counter st) (timers st) (clock_now st) n.

(** [new CANNON.Body(...)]: the next identifier is taken and the object
    is written to the store. *)
Definition alloc_body (b : Body) (st : State) : State :=
  mkState (console st) (stageTopY st) (diceTemplate st) (diceObjects st)
          (world_bodies st) (upd (bodies st) (body_counter st) b)
          (S (body_counter st)) (scene st)
          (meshes st) (mesh_counter st) (timers st) (clock_now st) (world_steps st).

(** [diceTemplate.clone(true)] *)
Definition alloc_mesh (m : Mesh) (st : State) : State :=
  mkState (console st) (stageTopY st) (diceTemplate st) (diceObjects st)
          (world_bodies st) (bodies st) (body_counter st) (scene st)
          (upd (meshes st) (mesh_counter st) m) (S (mesh_counter st))
          (timers st) (clock_now st) (world_steps st).

(** State of the script once its top level has run: nothing loaded yet. *)
Definition initial : State :=
  mkState [] 0 None [] [] (fun _ => new_body 0 false) 0 []
          (fun _ => mkMesh vec_zero (OQuat quat_identity) (fun _ => vec_zero) false)
          0 [] 0 0.

(** ** The stage asset and its collision bodies *)

Record Geometry := mkGeometry {
  g_index : option (list nat);
  g_position : option (list Vec3)     (* the [position] attribute, one entry per vertex *)
}.

Record Node := mkNode {
  n_isMesh : bool;
  n_geometry : option Geometry;
  n_matrixWorld : list Q              (* the 16 elements, column-major *)
}.

(** What the loader hands to the callback of [loadStage]: the nodes in
    the order [root.traverse] visits them and the top of the bounding
    box of the scaled root. *)
Record StageAsset := mkStageAsset {
  s_nodes : list Node;
  s_maxY : Q
}.

(** [geom.toNonIndexed()] on the position attribute. *)
Definition toNonIndexed (index : list nat) (pos : list Vec3) : list Vec3 :=
  map (fun i => nth i pos vec_zero) index.

(** [Array.from(posAttr.array)] *)
Definition flatten (l : list Vec3) : list Q :=
  flat_map (fun v => [vx v; vy v; vz v]) l.

(** [for (let i = 0; i < vertexCount; i += 3) indices.push(i, i+1, i+2)] *)
Fixpoint indices_from (fuel i n : nat) : list nat :=
  match fuel with
  | O => []
  | S f => if Nat.ltb i n
           then i :: (i + 1)%nat :: (i + 2)%nat :: indices_from f (i + 3)%nat n
           else []
  end.

Definition sequential_indices (vertexCount : nat) : list nat :=
  indices_from vertexCount 0 vertexCount.

(** [Vector3.applyMatrix4] *)
Definition applyMatrix4 (e : list Q) (v : Vec3) : Vec3 :=
  let el := fun i => nth i e 0 in
  let w := 1 / (el 3%nat * vx v + el 7%nat * vy v + el 11%nat * vz v + el 15%nat) in
  mkVec3 ((el 0%nat * vx v + el 4%nat * vy v + el 8%nat * vz v + el 12%nat) * w)
         ((el 1%nat * vx v + el 5%nat * vy v + el 9%nat * vz v + el 13%nat) * w)
         ((el 2%nat * vx v + el 6%nat * vy v + el 10%nat * vz v + el 14%nat) * w).

(** The world-space triangle soup of a node, when the node passes the
    guards of the traversal ([isMesh], a geometry, a position attribute). *)
Definition collision_input (n : Node) : option (list Q * list nat) :=
  if negb (n_isMesh n) then None
  else match n_geometry n with
       | None => None
       | Some g =>
           match g_position g with
           | None => None
           | Some pos =>
               let pos' := match g_index g with
                           | Some idx => toNonIndexed idx pos
                           | None => pos
                           end in
               let indices := sequential_indices (length pos') in
               let vertices := flatten (map (applyMatrix4 (n_matrixWorld n)) pos') in
               Some (vertices, indices)
           end
       end.

(** The static body of the fallback floor. *)
Definition ground_body (y : Q) : Body :=
  body_set_position (mkVec3 0 y 0)
    (body_set_quaternion (OEulerX (-1))
       (body_addShape Plane (new_body 0 true))).

(** The static body built for one stage mesh. *)
Definition trimesh_body (vertices : list Q) (indices : list nat) : Body :=
  body_addShape (Trimesh vertices indices) (new_body 0 true).

(** What the loader hands to the callback of [loadDiceTemplate]. *)
Record DieAsset := mkDieAsset {
  a_size : Orientation -> Vec3;
  a_geometry : bool
}.

(** Result of one [world.step]: the bodies as the solver left them and
    whether the call threw. *)
Record StepResult := mkStepResult {
  sr_bodies : nat -> Body;
  sr_threw : bool
}.

(** What [spawnDie] returns when it creates a die. *)
Record Spawned := mkSpawned { sp_mesh : nat; sp_body : nat }.

(** ** The handlers of the script *)

Section Script.

(** [world.step(dt, timeSinceLastCalled, maxSubSteps)] of cannon-es: it
    reads the bodies registered in the world and rewrites their state.
    The solver keeps state of its own between calls (accumulated time,
    contacts, sleep timers), so what a call does may depend on the calls
    made before it: the solver is handed their number. *)
Variable solver : nat -> Q -> Q -> nat -> list nat -> (nat -> Body) -> StepResult.

(** Whether [new CANNON.Trimesh(vertices, indices)] throws. *)
Variable trimesh_throws : list Q -> list nat -> bool.

Definition world_step (dt elapsed : Q) (maxSubSteps : nat) (st : State)
  : State * bool :=
  let r := solver (world_steps st) dt elapsed maxSubSteps
                  (world_bodies st) (bodies st) in
  (set_world_steps (S (world_steps st)) (set_bodies (sr_bodies r) st),
   sr_threw r).

(** *** loadStage *)

(** One visit of the second [root.traverse]. *)
Definition stage_mesh_step (st : State) (n : Node) : State :=
  match collision_input n with
  | None => st
  | Some (vertices, indices) =>
      if trimesh_throws vertices indices
      then log WarnTrimeshSkipped st
      else
        let b := body_counter st in
        let st1 := alloc_body (trimesh_body vertices indices) st in
        set_world_bodies (addBody b (world_bodies st1)) st1
  end.

(** The fallback floor (lines 160-171). *)
Definition add_ground_plane (st : State) : State :=
  let b := body_counter st in
  let st1 := alloc_body (ground_body (stageTopY st)) st in
  set_world_bodies (addBody b (world_bodies st1)) st1.

(** The success callback of [loadStage].  The shadow flags of the
    meshes and the shadow camera of the light only affect rendering and
    are left out.  Measuring the bounding box and building the plane
    body do not throw, so the [catch] branches around them are not
    modelled. *)
Definition loadStage (a : StageAsset) (st : State) : State :=
  let st1 := set_scene (scene_add NStage (scene st)) st in
  let st2 := set_stageTopY (Num.or_else (s_maxY a) 0) st1 in
  let st3 := log (LogStageTop (stageTopY st2)) st2 in
  let st4 := add_ground_plane st3 in
  let st5 := fold_left stage_mesh_step (s_nodes a) st4 in
  log LogStageLoaded st5.

(** *** loadDiceTemplate *)

(** The success callback of [loadDiceTemplate]; measuring the box does
    not throw, so the fallback of the [catch] branch is not modelled. *)
Definition loadDiceTemplate (a : DieAsset) (st : State) : State :=
  let tmpSize := a_size a (OQuat quat_identity) in
  let tpl := mkTemplate (a_size a) (a_geometry a) (vy tmpSize / 2) in
  log LogTemplateLoaded
    (log (LogTemplateSize tmpSize) (set_diceTemplate (Some tpl) st)).

(** *** spawnDie *)

(** Half-height of an already live die as the scan takes it (line 276). *)
Definition otherHalf (ms : nat -> Mesh) (d : Die) : Q :=
  if Num.truthy (d_halfHeight d) then d_halfHeight d
  else
    let m := ms (d_mesh d) in
    if m_geometry m then vy (m_size m (m_quaternion m)) / 2 else 0.5.

(** Top surface of a live die as the scan takes it (line 277). *)
Definition otherTop (ms : nat -> Mesh) (d : Die) : Q :=
  vy (m_position (ms (d_mesh d))) + otherHalf ms d.

(** [dist < horizRadius] for a live die (lines 273-275 and 278). *)
Definition nearby (ms : nat -> Mesh) (position : Vec3) (horizRadius : Q)
    (d : Die) : bool :=
  let dx := vx (m_position (ms (d_mesh d))) - vx position in
  let dz := vz (m_position (ms (d_mesh d))) - vz position in
  Num.sqrt_lt (dx * dx + dz * dz) horizRadius.

(** Body of the [for (const d of diceObjects)] loop.  Reading the
    fields of a live die does not throw, so the [catch] of the loop is
    not modelled. *)
Definition scan_step (ms : nat -> Mesh) (position : Vec3) (horizRadius : Q)
    (highestTop : Q) (d : Die) : Q :=
  if nearby ms position horizRadius d && Num.ltb highestTop (otherTop ms d)
  then otherTop ms d
  else highestTop.

(** The loop of lines 270-282, started from the stage top. *)
Definition highest_top (ms : nat -> Mesh) (stageTop : Q) (position : Vec3)
    (horizRadius : Q) (dice : list Die) : Q :=
  fold_left (scan_step ms position horizRadius) dice stageTop.

(** The box measured on the clone (lines 256-259 and 269). *)
Definition spawn_size (tpl : Template) (quaternion : Quat) : Vec3 :=
  t_size tpl (OQuat quaternion).

Definition spawn_halfExtents (tpl : Template) (quaternion : Quat) : Vec3 :=
  let size := spawn_size tpl quaternion in
  mkVec3 (vx size / 2) (vy size / 2) (vz size / 2).

Definition spawn_horizRadius (tpl : Template) (quaternion : Quat) : Q :=
  let size := spawn_size tpl quaternion in
  Num.max (vx size) (vz size) * 0.9.

(** The floor the placement stands on (the final [highestTop]). *)
Definition spawn_floor (tpl : Template) (position : Vec3) (quaternion : Quat)
    (st : State) : Q :=
  highest_top (meshes st) (stageTopY st) position
              (spawn_horizRadius tpl quaternion) (diceObjects st).

(** [minSafeY] of line 284. *)
Definition spawn_minSafeY (tpl : Template) (position : Vec3) (quaternion : Quat)
    (st : State) : Q :=
  spawn_floor tpl position quaternion st
  + vy (spawn_halfExtents tpl quaternion) + 0.02.

(** The caller's vector after line 285. *)
Definition clamp_position (position : Vec3) (minSafeY : Q) : Vec3 :=
  if Num.ltb (vy position) minSafeY then set_vy position minSafeY else position.

(** Where [spawnDie] stands after line 295: the visual is in the scene,
    the body is in the world at its initial position. *)
Record Placement := mkPlacement {
  pl_state : State;
  pl_position : Vec3;      (* the caller's vector, as the call left it *)
  pl_mesh : nat;
  pl_body : nat;
  pl_halfExtents : Vec3
}.

(** Lines 248-295.  [rnd] holds the three draws of [Math.random]. *)
Definition spawn_place (tpl : Template) (position : Vec3) (quaternion : Quat)
    (velocity : option Vec3) (rnd : Vec3) (st : State) : Placement :=
  let st1 := log (LogSpawning position velocity) st in
  let m := mesh_counter st1 in
  let st2 := alloc_mesh (mkMesh position (OQuat quaternion)
                                (t_size tpl) (t_geometry tpl)) st1 in
  let st3 := set_scene (scene_add (NDie m) (scene st2)) st2 in
  let halfExtents := spawn_halfExtents tpl quaternion in
  let body0 :=
    body_set_material true (body_addShape (Box halfExtents) (new_body 0.3 false)) in
  let minSafeY := spawn_minSafeY tpl position quaternion st3 in
  let position' := clamp_position position minSafeY in
  let body1 :=
    body_set_quaternion (OQuat quaternion)
      (body_set_position (mkVec3 (vx position') (vy position') (vz position'))
                         body0) in
  let body2 :=
    match velocity with
    | Some v => body_set_velocity (mkVec3 (vx v) (vy v) (vz v)) body1
    | None => body1
    end in
  let body3 :=
    body_set_dynamics 0.08 0.07
      (mkVec3 ((vx rnd - 0.5) * 10) ((vy rnd - 0.5) * 10) ((vz rnd - 0.5) * 10))
      true 0.2 1 body2 in
  let b := body_counter st3 in
  let st4 := alloc_body body3 st3 in
  let st5 := set_world_bodies (addBody b (world_bodies st4)) st4 in
  mkPlacement st5 position' m b halfExtents.

(** [for (let i = 0; i < 6; i++) world.step(1 / 120, 1 / 120, 1)] inside
    its [try]: a throwing step ends the loop. *)
Fixpoint preroll (n : nat) (st : State) : State :=
  match n with
  | O => st
  | S k =>
      let (st', threw) := world_step (1 / 120) (1 / 120) 1 st in
      if threw then st' else preroll k st'
  end.

(** [minSafeY] of line 306. *)
Definition settle_minSafeY (stageTop : Q) (halfExtents : Vec3) : Q :=
  stageTop
  + Num.max (Num.max (vx halfExtents) (vy halfExtents)) (vz halfExtents)
  + 0.05.

(** Lines 304-313 (the comparison and the two writes do not throw). *)
Definition corrective_check (m b : nat) (halfExtents : Vec3) (st : State)
  : State :=
  let minSafeY := settle_minSafeY (stageTopY st) halfExtents in
  let body := bodies st b in
  if Num.ltb (vy (b_position body)) minSafeY then
    let st1 :=
      set_bodies (upd (bodies st) b
                      (body_set_position (set_vy (b_position body) minSafeY) body))
                 st in
    let mesh := meshes st1 m in
    set_meshes (upd (meshes st1) m
                    (mesh_set_position (set_vy (m_position mesh) minSafeY) mesh))
               st1
  else st.

(** Lines 297-313. *)
Definition spawn_settle (pl : Placement) : State :=
  corrective_check (pl_mesh pl) (pl_body pl) (pl_halfExtents pl)
                   (preroll 6 (pl_state pl)).

(** Lines 315-325: the die joins [diceObjects] and its removal is
    scheduled 90 000 ms ahead. *)
Definition spawn_register (m b : nat) (halfHeight : Q) (st : State) : State :=
  let st1 :=
    set_diceObjects (diceObjects st ++ [mkDie m b (clock_now st) halfHeight]) st in
  set_timers (timers st1 ++ [mkTimer (clock_now st1 + 90000) b]) st1.

(** [spawnDie(position, quaternion, velocity)].  The result carries the
    new state, the caller's position vector as the call left it, and the
    returned value ([None] for [null]). *)
Definition spawnDie (position : Vec3) (quaternion : Quat)
    (velocity : option Vec3) (rnd : Vec3) (st : State)
  : State * Vec3 * option Spawned :=
  match diceTemplate st with
  | None => (log WarnTemplateNotLoaded st, position, None)
  | Some tpl =>
      let pl := spawn_place tpl position quaternion velocity rnd st in
      let st1 := spawn_settle pl in
      let st2 := spawn_register (pl_mesh pl) (pl_body pl)
                                (vy (pl_halfExtents pl)) st1 in
      (st2, pl_position pl, Some (mkSpawned (pl_mesh pl) (pl_body pl)))
  end.

(** [diceObjects.findIndex(d => d.body === body)] *)
Fixpoint findIndex_body (b : nat) (l : list Die) : option nat :=
  match l with
  | [] => None
  | d :: t =>
      if Nat.eqb (d_body d) b then Some O
      else match findIndex_body b t with
           | Some i => Some (S i)
           | None => None
           end
  end.

(** [a.splice(idx, 1)] *)
Fixpoint splice1 {A : Type} (idx : nat) (l : list A) : list A :=
  match l, idx with
  | [], _ => []
  | _ :: t, O => t
  | x :: t, S i => x :: splice1 i t
  end.

(** The callback handed to [setTimeout] (lines 317-325); [b] is the
    body its closure captured. *)
Definition timeout_callback (b : nat) (st : State) : State :=
  match findIndex_body b (diceObjects st) with
  | Some idx =>
      match nth_error (diceObjects st) idx with
      | Some d =>
          let st1 := set_world_bodies (removeBody b (world_bodies st)) st in
          let st2 := set_scene (scene_remove (NDie (d_mesh d)) (scene st1)) st1 in
          set_diceObjects (splice1 idx (diceObjects st2)) st2
      | None => st
      end
  | None => st
  end.

(** *** clearAllDice *)

(** [a.pop()] *)
Definition pop {A : Type} (l : list A) : option (A * list A) :=
  match rev l with
  | [] => None
  | x :: r => Some (x, rev r)
  end.

(** The [while (diceObjects.length)] loop; [fuel] is the length at
    entry.  [removeBody] and [remove] do nothing for an object that is
    not there and do not throw, so the [try] wrappers are transparent. *)
Fixpoint clear_loop (fuel : nat) (st : State) : State :=
  match fuel with
  | O => st
  | S k =>
      match pop (diceObjects st) with
      | None => st
      | Some (d, rest) =>
          let st1 := set_diceObjects rest st in
          let st2 := set_world_bodies (removeBody (d_body d) (world_bodies st1)) st1 in
          let st3 := set_scene (scene_remove (NDie (d_mesh d)) (scene st2)) st2 in
          clear_loop k st3
      end
  end.

Definition clearAllDice (st : State) : State :=
  clear_loop (length (diceObjects st)) st.

(** *** The roll button *)

(** [screenToWorldAtY], from the camera position and the normalised
    direction of the ray through the viewport centre. *)
Definition screenToWorldAtY (cam dir : Vec3) (planeY : Q) : Vec3 :=
  if Num.ltb (Num.abs (vy dir)) 1e-4 then add_scaled cam dir 3.0
  else
    let t := (planeY - vy cam) / vy dir in
    if Num.leb t 0 then add_scaled cam dir 3.0 else add_scaled cam dir t.

(** The vector the click handler builds for [spawnDie] (lines 377-384). *)
Definition click_dropY (tpl : Template) (stageTop : Q) : Q :=
  let planeY := Num.or_else stageTop 0 in
  let dieHalf := if Num.truthy (t_halfHeight tpl) then t_halfHeight tpl else 0.6 in
  let spawnMargin := Num.max 1.5 (dieHalf * 2.0) in
  planeY + dieHalf + spawnMargin.

Definition click_position (tpl : Template) (cam dir : Vec3) (stageTop : Q)
  : Vec3 :=
  let planeY := Num.or_else stageTop 0 in
  let point := screenToWorldAtY cam dir planeY in
  mkVec3 (vx point) (click_dropY tpl stageTop) (vz point).

(** The click handler.  [j1], [j2] are the two draws for the jitter,
    [rnd] the three draws [spawnDie] makes. *)
Definition rollClick (cam dir : Vec3) (j1 j2 : Q) (rnd : Vec3) (st : State)
  : State :=
  match diceTemplate st with
  | None => log WarnClickIgnored st
  | Some tpl =>
      let st1 := clearAllDice (log LogRollClicked st) in
      let pos := click_position tpl cam dir (stageTopY st1) in
      let jitter := 0.4 in
      let vel := mkVec3 ((j1 - 0.5) * jitter) 0 ((j2 - 0.5) * jitter) in
      fst (fst (spawnDie pos quat_identity (Some vel) rnd st1))
  end.

(** *** The R key *)

(** [String.prototype.toLowerCase] on the ASCII letters. *)
Definition lower_ascii (c : Ascii.ascii) : Ascii.ascii :=
  let n := Ascii.nat_of_ascii c in
  if (Nat.leb 65 n && Nat.leb n 90)%bool then Ascii.ascii_of_nat (n + 32) else c.

Fixpoint toLowerCase (s : string) : string :=
  match s with
  | EmptyString => EmptyString
  | String c t => String (lower_ascii c) (toLowerCase t)
  end.

(** The [keydown] listener: the same loop as [clearAllDice], written
    out in the handler. *)
Definition keydown (key : string) (st : State) : State :=
  if String.eqb (toLowerCase key) "r" then clearAllDice st else st.

(** *** syncAll and animate *)

Definition sync_one (bs : nat -> Body) (ms : nat -> Mesh) (d : Die)
  : nat -> Mesh :=
  let body := bs (d_body d) in
  upd ms (d_mesh d)
      (mesh_set_quaternion (b_quaternion body)
         (mesh_set_position (b_position body) (ms (d_mesh d)))).

Definition syncAll (st : State) : State :=
  set_meshes (fold_left (sync_one (bodies st)) (diceObjects st) (meshes st)) st.

(** One frame: [delta] is what [clock.getDelta()] returns.  A throwing
    step leaves the frame before [syncAll]. *)
Definition animate (delta : Q) (st : State) : State :=
  let dt := Num.min 0.02 delta in
  let (st1, threw) := world_step (1 / 60) dt 10 st in
  if threw then st1 else syncAll st1.

(** ** The event loop *)

(** What the browser can deliver to the script: the two loader
    callbacks (or their error callbacks), a click on the roll button, a
    key press, a display refresh, the expiry of a pending timer, and the
    passing of time between callbacks. *)
Inductive Event :=
| EvStageLoaded (a : StageAsset)
| EvStageError
| EvTemplateLoaded (a : DieAsset)
| EvTemplateError
| EvClick (cam dir : Vec3) (j1 j2 : Q) (rnd : Vec3)
| EvKey (key : string)
| EvFrame (delta : Q)
| EvTimeout (k : nat)
| EvElapse (dt : Q).

(** The state after an event, or [None] when the browser cannot deliver
    it: a timer is run once, and not before its delay has elapsed; time
    does not go backwards. *)
Definition handle (e : Event) (st : State) : option State :=
  match e with
  | EvStageLoaded a => Some (loadStage a st)
  | EvStageError => Some (log ErrStageLoad st)
  | EvTemplateLoaded a => Some (loadDiceTemplate a st)
  | EvTemplateError => Some (log ErrTemplateLoad st)
  | EvClick cam dir j1 j2 rnd => Some (rollClick cam dir j1 j2 rnd st)
  | EvKey key => Some (keydown key st)
  | EvFrame delta => Some (animate delta st)
  | EvTimeout k =>
      match nth_error (timers st) k with
      | Some tm =>
          if Num.leb (t_due tm) (clock_now st)
          then Some (timeout_callback (t_body tm)
                       (set_timers (splice1 k (timers st)) st))
          else None
      | None => None
      end
  | EvElapse dt =>
      if Num.leb 0 dt then Some (set_clock_now (clock_now st + dt) st) else None
  end.

Fixpoint run (es : list Event) (st : State) : option State :=
  match es with
  | [] => Some st
  | e :: t => match handle e st with
              | Some st' => run t st'
              | None => None
              end
  end.

Inductive reachable : State -> Prop :=
| reach_initial : reachable initial
| reach_step (st st' : State) (e : Event) :
    reachable st -> handle e st = Some st' -> reachable st'.

(** [N] consecutive frames with the given clock deltas. *)
Definition frames (deltas : list Q) (st : State) : State :=
  fold_left (fun s delta => animate delta s) deltas st.

End Script.

(** ** A solver and assets to run the script on *)

(** A solver that generates no contacts: every body of the world with a
    positive mass falls freely for the elapsed time (one semi-implicit
    Euler step under the gravity the script configures, 9.82 downwards);
    static bodies and bodies outside the world are left alone.  The
    scenes it is run on below keep the dice clear of the stage and of
    each other for as long as it runs, so that there is no contact for
    a solver to resolve. *)
Definition free_fall_body (elapsed : Q) (b : Body) : Body :=
  if Num.ltb 0 (b_mass b) then
    let v := b_velocity b in
    let v' := mkVec3 (vx v) (vy v - 9.82 * elapsed) (vz v) in
    let p := b_position b in
    body_set_position
      (mkVec3 (vx p + vx v' * elapsed) (vy p + vy v' * elapsed)
              (vz p + vz v' * elapsed))
      (body_set_velocity v' b)
  else b.

Definition free_fall (calls : nat) (dt elapsed : Q) (maxSubSteps : nat)
    (world : list nat)
    (bs : nat -> Body) : StepResult :=
  mkStepResult
    (fun i => if existsb (Nat.eqb i) world
              then free_fall_body elapsed (bs i)
              else bs i)
    false.

(** A [Trimesh] constructor that rejects triangle lists naming a vertex
    the vertex array does not hold. *)
Definition index_out_of_range (vertices : list Q) (indices : list nat) : bool :=
  existsb (fun i => Nat.leb (length vertices) (3 * i + 2)) indices.

(** A die whose bounding box is the unit cube under every orientation. *)
Definition unit_die : DieAsset :=
  mkDieAsset (fun _ => mkVec3 1 1 1) false.

Definition unit_template : Template :=
  mkTemplate (fun _ => mkVec3 1 1 1) false (1 / 2).

(** Uniform scale by 4, the world matrix of the stage meshes. *)
Definition scale4 : list Q :=
  [4; 0; 0; 0;  0; 4; 0; 0;  0; 0; 4; 0;  0; 0; 0; 1].

(** A square table top made of two triangles sharing an edge. *)
Definition table_top : Node :=
  mkNode true
    (Some (mkGeometry (Some [0; 1; 2; 0; 2; 3]%nat)
             (Some [mkVec3 (-1) 0.5 (-1); mkVec3 1 0.5 (-1);
                    mkVec3 1 0.5 1; mkVec3 (-1) 0.5 1])))
    scale4.

(** A mesh whose vertex count is not a multiple of three. *)
Definition broken_mesh : Node :=
  mkNode true
    (Some (mkGeometry None
             (Some [mkVec3 0 0 0; mkVec3 1 0 0; mkVec3 0 0 1; mkVec3 1 0 1])))
    scale4.

(** A group node: visited by the traversal, not a mesh. *)
Definition group_node : Node := mkNode false None scale4.

(** A stage whose top is at 2.0. *)
Definition table_stage : StageAsset :=
  mkStageAsset [group_node; broken_mesh; table_top] 2.0.

Definition one_mesh_stage : StageAsset :=
  mkStageAsset [table_top] 2.0.

(** The script after both assets have loaded, on the table stage. *)
Definition loaded : State :=
  loadDiceTemplate unit_die (loadStage index_out_of_range table_stage initial).

(** A state with one live die above the origin whose visual and body
    are at height 2.1, so that its top surface is at 2.6 over a stage
    top at 2.0: the scene of the placement examples. *)
Definition resting_body : Body :=
  body_set_dynamics 0.08 0.07 vec_zero true 0.2 1
    (body_set_position (mkVec3 0 2.1 0)
       (body_set_material true
          (body_addShape (Box (mkVec3 0.5 0.5 0.5)) (new_body 0.3 false)))).

Definition one_resting_die : State :=
  mkState [] 2.0 (Some unit_template) [mkDie 0 1 0 (1 / 2)]
          [0; 1]%nat
          (upd (upd (fun _ => new_body 0 false) 0 (ground_body 2.0)) 1 resting_body)
          2
          [NStage; NDie 0]
          (upd (fun _ => mkMesh vec_zero (OQuat quat_identity) (fun _ => vec_zero) false)
               0 (mkMesh (mkVec3 0 2.1 0) (OQuat quat_identity)
                         (fun _ => mkVec3 1 1 1) false))
          1
          [mkTimer 90000 1]
          1000 0.

(** The camera where [initThree] puts it, looking straight down: the
    ray through the viewport centre meets the stage plane above the
    origin. *)
Definition camera : Vec3 := mkVec3 0 12 0.
Definition looking_down : Vec3 := mkVec3 0 (-1) 0.

(** Draws of [Math.random] that give no jitter and no spin. *)
Definition mid_draws : Vec3 := mkVec3 0.5 0.5 0.5.

(** The state in which the click handler calls [spawnDie]. *)
Definition click_state : State := clearAllDice (log LogRollClicked loaded).

(** The placement of the die a click on the roll button spawns. *)
Definition click_placement : Placement :=
  spawn_place unit_template
    (click_position unit_template camera looking_down (stageTopY click_state))
    quat_identity (Some vec_zero) mid_draws click_state.

(** The placement of a die requested at a given height above the origin
    of the loaded, empty stage. *)
Definition placement_at (y : Q) : Placement :=
  spawn_place unit_template (mkVec3 0 y 0) quat_identity None mid_draws loaded.

(** The script after one click on the roll button. *)
Definition after_click : State :=
  rollClick free_fall camera looking_down 0.5 0.5 mid_draws loaded.

(** ... and after 90 seconds more. *)
Definition after_wait : State :=
  set_clock_now (clock_now after_click + 90000) after_click.

(** A die requested at height 0 above that die. *)
Definition crowded_position : Vec3 := mkVec3 0 0 0.

(** The die of the first click a fifth of a second later, after ten
    frames 0.02 s apart: it was created at height 4 and is still well
    above the stage, falling at about 2.5 m/s. *)
Definition falling_die : State :=
  frames free_fall [0.02; 0.02; 0.02; 0.02; 0.02; 0.02; 0.02; 0.02; 0.02; 0.02]
         after_click.

(** A second die thrown downwards at 2 m/s, slower than the first one
    falls, and requested at height 0 above the origin: it is placed
    on top of the falling die and the two drift apart. *)
Definition overhead_position : Vec3 := mkVec3 0 0 0.

Definition overhead_spawn : State * Vec3 * option Spawned :=
  spawnDie free_fall overhead_position quat_identity (Some (mkVec3 0 (-2) 0))
           mid_draws falling_die.

(** A die requested at height 0 on the loaded, empty stage. *)
Definition low_position : Vec3 := mkVec3 0 0 0.

Definition low_spawn : State * Vec3 * option Spawned :=
  spawnDie free_fall low_position quat_identity None mid_draws loaded.

(** The stage callback run on the one-mesh stage. *)
Definition one_mesh_loaded : State :=
  loadStage index_out_of_range one_mesh_stage initial.

(** ** Invariants of the module state *)

(** What every state the event loop can produce satisfies: the world
    and the scene hold no object twice, identifiers in use are below the
    allocation counters, live dice have pairwise distinct bodies and
    visuals, each live die is registered in the world and in the scene
    and has its removal timer pending, and the cached half-height of the
    template is half the height of its box. *)
Record wf (st : State) : Prop := mk_wf {
  wf_world_nodup : NoDup (world_bodies st);
  wf_world_fresh : forall b, In b (world_bodies st) -> (b < body_counter st)%nat;
  wf_scene_nodup : NoDup (scene st);
  wf_scene_fresh : forall m, In (NDie m) (scene st) -> (m < mesh_counter st)%nat;
  wf_dice_bodies : NoDup (map d_body (diceObjects st));
  wf_dice_meshes : NoDup (map d_mesh (diceObjects st));
  wf_dice_fresh : forall d, In d (diceObjects st) ->
      (d_body d < body_counter st)%nat /\ (d_mesh d < mesh_counter st)%nat;
  wf_dice_registered : forall d, In d (diceObjects st) ->
      In (d_body d) (world_bodies st) /\ In (NDie (d_mesh d)) (scene st);
  wf_dice_timer : forall d, In d (diceObjects st) ->
      In (mkTimer (d_born d + 90000) (d_body d)) (timers st);
  wf_timers_fresh : forall t, In t (timers st) -> (t_body t < body_counter st)%nat;
  wf_timers_nodup : NoDup (map t_body (timers st));
  wf_template : forall tpl, diceTemplate st = Some tpl ->
      t_halfHeight tpl = vy (t_size tpl (OQuat quat_identity)) / 2
}.

(** Every live die's visual shows the transform of its body. *)
Definition synced (st : State) : Prop :=
  forall d, In d (diceObjects st) ->
    m_position (meshes st (d_mesh d)) = b_position (bodies st (d_body d)) /\
    m_quaternion (meshes st (d_mesh d)) = b_quaternion (bodies st (d_body d)).

(** ** Stage meshes, as the traversal sorts them *)

(** The triangle soups of the nodes that pass the guards of the
    traversal, in visiting order. *)
Definition collidables (nodes : list Node) : list (list Q * list nat) :=
  flat_map (fun n => match collision_input n with
                     | Some vi => [vi]
                     | None => []
                     end) nodes.

(** Those for which the [Trimesh] constructor succeeds, and those for
    which it throws. *)
Definition built (throws : list Q -> list nat -> bool) (nodes : list Node)
  : list (list Q * list nat) :=
  filter (fun vi => negb (throws (fst vi) (snd vi))) (collidables nodes).

Definition rejected (throws : list Q -> list nat -> bool) (nodes : list Node)
  : list (list Q * list nat) :=
  filter (fun vi => throws (fst vi) (snd vi)) (collidables nodes).

(** ** Further names for parts of the handlers *)

(** The launch velocity the click handler builds from its two draws
    (lines 386-387). *)
Definition click_velocity (j1 j2 : Q) : Vec3 :=
  let jitter := 0.4 in
  mkVec3 ((j1 - 0.5) * jitter) 0 ((j2 - 0.5) * jitter).

(** A view from the side: the camera at height 12 looks down along a
    ray that loses 4 units of height for every 3 it travels in X. *)
Definition slanted_ray : Vec3 := mkVec3 0.6 (-0.8) 0.

(** A ray that climbs away from the stage. *)
Definition rising_ray : Vec3 := mkVec3 0 1 0.

(** The only die live after the first click on the loaded stage. *)
Definition first_die : Die := mkDie 0 2 0 (1 / 2).

(** A second click, with other draws for the jitter. *)
Definition after_second_click : State :=
  rollClick free_fall camera looking_down 0.25 0.75 mid_draws after_click.

(** * Properties *)

(** ** Numbers *)

Lemma ltb_lt (x y : Q) : Num.ltb x y = true <-> x < y.
Proof.
  unfold Num.ltb, Qlt, Qcompare.
  destruct (Z.compare_spec (Qnum x * QDen y) (Qnum y * QDen x));
    split; intros; try discriminate; try reflexivity; lia.
Qed.

Lemma ltb_ge (x y : Q) : Num.ltb x y = false <-> y <= x.
Proof.
  unfold Num.ltb, Qle, Qcompare.
  destruct (Z.compare_spec (Qnum x * QDen y) (Qnum y * QDen x));
    split; intros; try discriminate; try reflexivity; lia.
Qed.

Lemma max_l (x y : Q) : x <= Num.max x y.
Proof.
  unfold Num.max. destruct (Num.ltb x y) eqn:E.
  - apply ltb_lt in E. lra.
  - lra.
Qed.

Lemma max_r (x y : Q) : y <= Num.max x y.
Proof.
  unfold Num.max. destruct (Num.ltb x y) eqn:E.
  - lra.
  - apply ltb_ge in E. exact E.
Qed.

Lemma truthy_nonzero (x : Q) : Num.truthy x = true <-> ~ x == 0.
Proof.
  unfold Num.truthy. rewrite negb_true_iff.
  split.
  - intros E H. apply Qeq_bool_iff in H. congruence.
  - intros H. destruct (Qeq_bool x 0) eqn:E; [|reflexivity].
    apply Qeq_bool_iff in E. contradiction.
Qed.

Lemma or_else_zero (x : Q) : Num.or_else x 0 == x.
Proof.
  unfold Num.or_else, Num.truthy.
  destruct (Qeq_bool x 0) eqn:E; simpl.
  - apply Qeq_bool_iff in E. symmetry. exact E.
  - reflexivity.
Qed.

(** ** Stores and arrays *)

Lemma upd_same {A} (f : nat -> A) k v : upd f k v k = v.
Proof. unfold upd. now rewrite Nat.eqb_refl. Qed.

Lemma upd_other {A} (f : nat -> A) k v i : i <> k -> upd f k v i = f i.
Proof. unfold upd. intros H. apply Nat.eqb_neq in H. now rewrite H. Qed.

Lemma node_eqb_eq (a b : SceneNode) : node_eqb a b = true <-> a = b.
Proof.
  destruct a, b; simpl; split; intros H; try discriminate; try reflexivity.
  - apply Nat.eqb_eq in H. now subst.
  - inversion H. apply Nat.eqb_refl.
Qed.

Section RemoveFirst.

Context {A : Type} (eqb : A -> A -> bool).
Hypothesis eqb_eq : forall a b, eqb a b = true <-> a = b.

Lemma remove_first_In (x y : A) (l : list A) :
  In y (remove_first eqb x l) -> In y l.
Proof.
  induction l as [|z t IH]; simpl; [tauto|].
  destruct (eqb x z); simpl; intuition.
Qed.

Lemma remove_first_keeps (x y : A) (l : list A) :
  y <> x -> In y l -> In y (remove_first eqb x l).
Proof.
  intros Hne. induction l as [|z t IH]; simpl; [tauto|].
  intros [H|H].
  - subst z. destruct (eqb x y) eqn:E.
    + apply eqb_eq in E. congruence.
    + now left.
  - destruct (eqb x z); simpl; auto.
Qed.

Lemma remove_first_NoDup (x : A) (l : list A) :
  NoDup l -> NoDup (remove_first eqb x l).
Proof.
  induction 1 as [|z t Hz Ht IH]; simpl; [constructor|].
  destruct (eqb x z); [assumption|].
  constructor; [|assumption].
  intros H. apply Hz. eapply remove_first_In; eauto.
Qed.

Lemma remove_first_gone (x : A) (l : list A) :
  NoDup l -> ~ In x (remove_first eqb x l).
Proof.
  induction 1 as [|z t Hz Ht IH]; simpl; [tauto|].
  destruct (eqb x z) eqn:E.
  - apply eqb_eq in E. now subst.
  - simpl. intros [H|H]; [|tauto].
    subst z. assert (eqb x x = true) by now apply eqb_eq. congruence.
Qed.

Lemma remove_first_absent (x : A) (l : list A) :
  ~ In x l -> remove_first eqb x l = l.
Proof.
  induction l as [|z t IH]; simpl; [reflexivity|].
  intros H. destruct (eqb x z) eqn:E.
  - apply eqb_eq in E. subst. tauto.
  - f_equal. apply IH. tauto.
Qed.

End RemoveFirst.

Lemma addBody_fresh (b : nat) (l : list nat) :
  ~ In b l -> addBody b l = l ++ [b].
Proof.
  intros H. unfold addBody.
  destruct (existsb (Nat.eqb b) l) eqn:E; [|reflexivity].
  apply existsb_exists in E. destruct E as [x [Hx E]].
  apply Nat.eqb_eq in E. subst. contradiction.
Qed.

Lemma NoDup_snoc {A} (l : list A) (x : A) :
  NoDup l -> ~ In x l -> NoDup (l ++ [x]).
Proof.
  intros Hl Hx. induction Hl as [|z t Hz Ht IH]; simpl.
  - constructor; [tauto|constructor].
  - constructor.
    + rewrite in_app_iff. simpl. intros [H|[H|[]]]; [tauto|].
      subst. apply Hx. now left.
    + apply IH. intros H. apply Hx. now right.
Qed.

Lemma pop_snoc {A} (l : list A) (x : A) : pop (l ++ [x]) = Some (x, l).
Proof.
  unfold pop. rewrite rev_app_distr. simpl. now rewrite rev_involutive.
Qed.

Section Properties.

Variable solver : nat -> Q -> Q -> nat -> list nat -> (nat -> Body) -> StepResult.
Variable trimesh_throws : list Q -> list nat -> bool.

(** ** What the physics steps leave alone *)

Lemma preroll_frame (n : nat) (st : State) :
  preroll solver n st
  = set_world_steps (world_steps (preroll solver n st))
      (set_bodies (bodies (preroll solver n st)) st).
Proof.
  revert st. induction n as [|k IH]; intros st.
  - destruct st; reflexivity.
  - simpl. destruct (sr_threw _).
    + reflexivity.
    + rewrite IH. reflexivity.
Qed.

(** ** clearAllDice *)

Lemma clear_loop_spec (l : list Die) :
  forall st, diceObjects st = l ->
    NoDup (world_bodies st) -> NoDup (scene st) ->
    let st' := clear_loop (length l) st in
    st' = mkState (console st) (stageTopY st) (diceTemplate st) []
            (world_bodies st') (bodies st) (body_counter st) (scene st')
            (meshes st) (mesh_counter st) (timers st) (clock_now st) (world_steps st)
    /\ NoDup (world_bodies st') /\ NoDup (scene st')
    /\ (forall b, In b (world_bodies st') <->
                  In b (world_bodies st) /\ ~ In b (map d_body l))
    /\ (forall n, In n (scene st') <->
                  In n (scene st) /\ ~ In n (map (fun d => NDie (d_mesh d)) l)).
Proof.
  induction l as [|x l' IH] using rev_ind; intros st Hl Hw Hs.
  - simpl. repeat split; try assumption; try tauto.
    destruct st; simpl in *; subst; reflexivity.
  - rewrite length_app, Nat.add_1_r. simpl.
    rewrite Hl, pop_snoc.
    match goal with |- context [clear_loop _ ?s] => set (st3 := s) end.
    destruct (IH st3) as (Heq & Hw' & Hs' & Hin & Hsc).
    + reflexivity.
    + apply remove_first_NoDup. exact Hw.
    + apply remove_first_NoDup. exact Hs.
    + split; [|split; [|split; [|split]]]; try assumption.
      * intros b. split.
        -- intros H. apply Hin in H. destruct H as [H1 H2].
           split; [eapply remove_first_In; exact H1|].
           rewrite map_app, in_app_iff. intros [H|[H|[]]]; [tauto|]. subst b.
           revert H1. apply remove_first_gone; [apply Nat.eqb_eq|exact Hw].
        -- intros [H1 H2]. apply Hin. rewrite map_app, in_app_iff in H2.
           split; [|tauto].
           apply remove_first_keeps; [apply Nat.eqb_eq| |exact H1].
           intros E. apply H2. right. simpl. now left.
      * intros n. split.
        -- intros H. apply Hsc in H. destruct H as [H1 H2].
           split; [eapply remove_first_In; exact H1|].
           rewrite map_app, in_app_iff. intros [H|[H|[]]]; [tauto|]. subst n.
           revert H1. apply remove_first_gone; [apply node_eqb_eq|exact Hs].
        -- intros [H1 H2]. apply Hsc. rewrite map_app, in_app_iff in H2.
           split; [|tauto].
           apply remove_first_keeps; [apply node_eqb_eq| |exact H1].
           intros E. apply H2. right. simpl. now left.
Qed.

(** ** The invariant holds along every run *)

Lemma wf_initial : wf initial.
Proof.
  clear solver trimesh_throws.
  constructor; simpl; try constructor; try tauto; try discriminate.
Qed.

Lemma wf_log (m : LogMsg) (st : State) : wf st -> wf (log m st).
Proof. intros []; constructor; assumption. Qed.

Lemma wf_set_bodies (h : nat -> Body) (st : State) : wf st -> wf (set_bodies h st).
Proof. intros []; constructor; assumption. Qed.

Lemma wf_set_meshes (h : nat -> Mesh) (st : State) : wf st -> wf (set_meshes h st).
Proof. intros []; constructor; assumption. Qed.

Lemma wf_set_stageTopY (y : Q) (st : State) : wf st -> wf (set_stageTopY y st).
Proof. intros []; constructor; assumption. Qed.

Lemma wf_set_clock_now (t : Q) (st : State) : wf st -> wf (set_clock_now t st).
Proof. intros []; constructor; assumption. Qed.

Lemma wf_set_world_steps (n : nat) (st : State) :
  wf st -> wf (set_world_steps n st).
Proof. intros []; constructor; assumption. Qed.

Lemma fresh_body_absent (st : State) :
  wf st -> ~ In (body_counter st) (world_bodies st).
Proof. intros W H. apply (wf_world_fresh st W) in H. lia. Qed.

Lemma fresh_mesh_absent (st : State) :
  wf st -> ~ In (NDie (mesh_counter st)) (scene st).
Proof. intros W H. apply (wf_scene_fresh st W) in H. lia. Qed.

Lemma clearAllDice_shape (st : State) :
  wf st ->
  let st' := clearAllDice st in
  st' = mkState (console st) (stageTopY st) (diceTemplate st) []
          (world_bodies st') (bodies st) (body_counter st) (scene st')
          (meshes st) (mesh_counter st) (timers st) (clock_now st) (world_steps st)
  /\ NoDup (world_bodies st') /\ NoDup (scene st')
  /\ (forall b, In b (world_bodies st') <->
                In b (world_bodies st) /\ ~ In b (map d_body (diceObjects st)))
  /\ (forall n, In n (scene st') <->
                In n (scene st) /\
                ~ In n (map (fun d => NDie (d_mesh d)) (diceObjects st))).
Proof.
  intros W. unfold clearAllDice.
  apply clear_loop_spec; [reflexivity|apply W|apply W].
Qed.

Lemma wf_clearAllDice (st : State) : wf st -> wf (clearAllDice st).
Proof.
  intros W.
  destruct (clearAllDice_shape st W) as (Heq & Hw & Hs & Hin & Hsc).
  rewrite Heq. constructor; simpl; try assumption; try tauto; try apply W.
  - intros b H. apply Hin in H. apply W. tauto.
  - intros m H. apply Hsc in H. apply W. tauto.
  - constructor.
  - constructor.
Qed.

Lemma corrective_check_frame (m b : nat) (he : Vec3) (st : State) :
  corrective_check m b he st
  = set_meshes (meshes (corrective_check m b he st))
      (set_bodies (bodies (corrective_check m b he st)) st).
Proof.
  unfold corrective_check.
  destruct (Num.ltb _ _); destruct st; reflexivity.
Qed.

Lemma spawn_settle_frame (pl : Placement) :
  spawn_settle solver pl
  = set_meshes (meshes (spawn_settle solver pl))
      (set_world_steps (world_steps (preroll solver 6 (pl_state pl)))
         (set_bodies (bodies (spawn_settle solver pl)) (pl_state pl))).
Proof.
  unfold spawn_settle.
  etransitivity; [apply corrective_check_frame|].
  generalize (meshes (corrective_check (pl_mesh pl) (pl_body pl)
                        (pl_halfExtents pl) (preroll solver 6 (pl_state pl)))).
  generalize (bodies (corrective_check (pl_mesh pl) (pl_body pl)
                        (pl_halfExtents pl) (preroll solver 6 (pl_state pl)))).
  intros B M. rewrite preroll_frame. reflexivity.
Qed.

Lemma spawn_place_shape (tpl : Template) (position : Vec3) (quaternion : Quat)
    (velocity : option Vec3) (rnd : Vec3) (st : State) :
  wf st ->
  let pl := spawn_place tpl position quaternion velocity rnd st in
  pl_state pl
  = mkState (console st ++ [LogSpawning position velocity]) (stageTopY st)
      (diceTemplate st) (diceObjects st)
      (world_bodies st ++ [body_counter st]) (bodies (pl_state pl))
      (S (body_counter st))
      (scene st ++ [NDie (mesh_counter st)]) (meshes (pl_state pl))
      (S (mesh_counter st)) (timers st) (clock_now st) (world_steps st)
  /\ pl_mesh pl = mesh_counter st
  /\ pl_body pl = body_counter st
  /\ pl_halfExtents pl = spawn_halfExtents tpl quaternion.
Proof.
  intros W. unfold spawn_place.
  cbn [pl_state pl_mesh pl_body pl_halfExtents].
  repeat split.
  unfold set_world_bodies, alloc_body, set_scene, alloc_mesh, log.
  cbn [console stageTopY diceTemplate diceObjects world_bodies bodies
       body_counter scene meshes mesh_counter timers clock_now world_steps].
  rewrite (addBody_fresh _ _ (fresh_body_absent st W)).
  unfold scene_add.
  rewrite (remove_first_absent node_eqb node_eqb_eq _ _ (fresh_mesh_absent st W)).
  reflexivity.
Qed.

Lemma spawnDie_shape (tpl : Template) (position : Vec3) (quaternion : Quat)
    (velocity : option Vec3) (rnd : Vec3) (st : State) :
  diceTemplate st = Some tpl -> wf st ->
  let st' := fst (fst (spawnDie solver position quaternion velocity rnd st)) in
  let m := mesh_counter st in
  let b := body_counter st in
  st' = mkState (console st ++ [LogSpawning position velocity]) (stageTopY st)
          (Some tpl)
          (diceObjects st ++
             [mkDie m b (clock_now st) (vy (spawn_halfExtents tpl quaternion))])
          (world_bodies st ++ [b]) (bodies st') (S b)
          (scene st ++ [NDie m]) (meshes st') (S m)
          (timers st ++ [mkTimer (clock_now st + 90000) b]) (clock_now st)
          (world_steps st')
  /\ snd (spawnDie solver position quaternion velocity rnd st)
     = Some (mkSpawned m b).
Proof.
  intros Ht W. unfold spawnDie. rewrite Ht.
  cbn [fst snd].
  destruct (spawn_place_shape tpl position quaternion velocity rnd st W)
    as (Hs & Hm & Hb & Hh).
  rewrite Hm, Hb, Hh.
  unfold spawn_register. rewrite spawn_settle_frame. rewrite Hs.
  cbn [set_meshes set_bodies set_diceObjects set_timers set_world_steps
       console stageTopY diceTemplate diceObjects world_bodies bodies
       body_counter scene meshes mesh_counter timers clock_now world_steps].
  rewrite Ht. split; reflexivity.
Qed.

Lemma wf_spawnDie (position : Vec3) (quaternion : Quat)
    (velocity : option Vec3) (rnd : Vec3) (st : State) :
  wf st -> wf (fst (fst (spawnDie solver position quaternion velocity rnd st))).
Proof.
  intros W. destruct (diceTemplate st) as [tpl|] eqn:Ht.
  2:{ unfold spawnDie. rewrite Ht. simpl. now apply wf_log. }
  destruct (spawnDie_shape tpl position quaternion velocity rnd st Ht W)
    as [Heq _].
  rewrite Heq. clear Heq.
  assert (Hb : ~ In (body_counter st) (map d_body (diceObjects st))).
  { intros H. apply in_map_iff in H. destruct H as [d [E H]].
    apply (wf_dice_fresh st W) in H. lia. }
  assert (Hm : ~ In (mesh_counter st) (map d_mesh (diceObjects st))).
  { intros H. apply in_map_iff in H. destruct H as [d [E H]].
    apply (wf_dice_fresh st W) in H. lia. }
  assert (Htm : ~ In (body_counter st) (map t_body (timers st))).
  { intros H. apply in_map_iff in H. destruct H as [t [E H]].
    apply (wf_timers_fresh st W) in H. lia. }
  constructor; cbn [console stageTopY diceTemplate diceObjects world_bodies
                    bodies body_counter scene meshes mesh_counter timers
                    clock_now world_steps].
  - apply NoDup_snoc; [apply W|apply fresh_body_absent, W].
  - intros b H. apply in_app_iff in H. destruct H as [H|[H|[]]].
    + apply (wf_world_fresh st W) in H. lia.
    + subst. lia.
  - apply NoDup_snoc; [apply W|apply fresh_mesh_absent, W].
  - intros m H. apply in_app_iff in H. destruct H as [H|[H|[]]].
    + apply (wf_scene_fresh st W) in H. lia.
    + inversion H. lia.
  - rewrite map_app. apply NoDup_snoc; [apply W|exact Hb].
  - rewrite map_app. apply NoDup_snoc; [apply W|exact Hm].
  - intros d H. apply in_app_iff in H. destruct H as [H|[H|[]]].
    + apply (wf_dice_fresh st W) in H. lia.
    + subst d. simpl. lia.
  - intros d H. rewrite !in_app_iff. apply in_app_iff in H.
    destruct H as [H|[H|[]]].
    + apply (wf_dice_registered st W) in H. tauto.
    + subst d. simpl. tauto.
  - intros d H. rewrite in_app_iff. apply in_app_iff in H.
    destruct H as [H|[H|[]]].
    + left. now apply (wf_dice_timer st W).
    + subst d. right. left. reflexivity.
  - intros t H. apply in_app_iff in H. destruct H as [H|[H|[]]].
    + apply (wf_timers_fresh st W) in H. lia.
    + subst t. simpl. lia.
  - rewrite map_app. apply NoDup_snoc; [apply W|exact Htm].
  - intros tpl0 E. apply (wf_template st W). congruence.
Qed.

Lemma wf_rollClick (cam dir : Vec3) (j1 j2 : Q) (rnd : Vec3) (st : State) :
  wf st -> wf (rollClick solver cam dir j1 j2 rnd st).
Proof.
  intros W. unfold rollClick. destruct (diceTemplate st).
  - apply wf_spawnDie, wf_clearAllDice, wf_log, W.
  - apply wf_log, W.
Qed.

Lemma wf_keydown (key : string) (st : State) : wf st -> wf (keydown key st).
Proof.
  intros W. unfold keydown. destruct (String.eqb _ _).
  - apply wf_clearAllDice, W.
  - exact W.
Qed.

Lemma wf_animate (delta : Q) (st : State) : wf st -> wf (animate solver delta st).
Proof.
  intros W. unfold animate, world_step.
  destruct (sr_threw _).
  - apply wf_set_world_steps, wf_set_bodies, W.
  - unfold syncAll. apply wf_set_meshes, wf_set_world_steps, wf_set_bodies, W.
Qed.

Lemma wf_loadDiceTemplate (a : DieAsset) (st : State) :
  wf st -> wf (loadDiceTemplate a st).
Proof.
  intros W. unfold loadDiceTemplate. apply wf_log, wf_log.
  destruct W. constructor; try assumption.
  simpl. intros tpl E. inversion E. reflexivity.
Qed.

Lemma wf_add_body (body : Body) (st : State) :
  wf st ->
  wf (set_world_bodies
        (addBody (body_counter st) (world_bodies (alloc_body body st)))
        (alloc_body body st)).
Proof.
  intros W. cbn [alloc_body world_bodies].
  rewrite (addBody_fresh _ _ (fresh_body_absent st W)).
  constructor; cbn [set_world_bodies alloc_body console stageTopY diceTemplate
                    diceObjects world_bodies bodies body_counter scene meshes
                    mesh_counter timers clock_now world_steps]; try apply W.
  - apply NoDup_snoc; [apply W|apply fresh_body_absent, W].
  - intros b H. apply in_app_iff in H. destruct H as [H|[H|[]]].
    + apply (wf_world_fresh st W) in H. lia.
    + subst. lia.
  - intros d H. apply (wf_dice_fresh st W) in H. lia.
  - intros d H. rewrite in_app_iff.
    apply (wf_dice_registered st W) in H. tauto.
  - intros t H. apply (wf_timers_fresh st W) in H. lia.
Qed.

Lemma wf_stage_mesh_step (st : State) (n : Node) :
  wf st -> wf (stage_mesh_step trimesh_throws st n).
Proof.
  intros W. unfold stage_mesh_step.
  destruct (collision_input n) as [[vertices indices]|]; [|exact W].
  destruct (trimesh_throws vertices indices).
  - apply wf_log, W.
  - apply wf_add_body, W.
Qed.

Lemma wf_stage_meshes (nodes : list Node) (st : State) :
  wf st -> wf (fold_left (stage_mesh_step trimesh_throws) nodes st).
Proof.
  revert st. induction nodes as [|n t IH]; intros st W; simpl.
  - exact W.
  - apply IH, wf_stage_mesh_step, W.
Qed.

Lemma wf_scene_add_stage (st : State) :
  wf st -> wf (set_scene (scene_add NStage (scene st)) st).
Proof.
  intros W.
  assert (Hrm : forall n, In n (remove_first node_eqb NStage (scene st)) ->
                          In n (scene st))
    by (intros n; apply remove_first_In).
  constructor; cbn [set_scene console stageTopY diceTemplate
                    diceObjects world_bodies bodies body_counter scene meshes
                    mesh_counter timers clock_now world_steps]; try apply W.
  - unfold scene_add. apply NoDup_snoc.
    + apply remove_first_NoDup, W.
    + apply remove_first_gone; [apply node_eqb_eq|apply W].
  - intros m H. unfold scene_add in H. apply in_app_iff in H.
    destruct H as [H|[H|[]]]; [|discriminate].
    apply (wf_scene_fresh st W). now apply Hrm.
  - intros d H. apply (wf_dice_registered st W) in H.
    split; [tauto|]. unfold scene_add. rewrite in_app_iff. left.
    apply remove_first_keeps; [apply node_eqb_eq|discriminate|tauto].
Qed.

Lemma wf_loadStage (a : StageAsset) (st : State) :
  wf st -> wf (loadStage trimesh_throws a st).
Proof.
  intros W. unfold loadStage.
  apply wf_log, wf_stage_meshes. unfold add_ground_plane.
  apply wf_add_body, wf_log, wf_set_stageTopY, wf_scene_add_stage, W.
Qed.

(** *** Timers *)

Lemma splice1_app {A} (l1 l2 : list A) (x : A) :
  splice1 (length l1) (l1 ++ x :: l2) = l1 ++ l2.
Proof. induction l1 as [|y t IH]; simpl; [reflexivity|now rewrite IH]. Qed.

Lemma nth_error_splice {A} (l : list A) (k : nat) (x : A) :
  nth_error l k = Some x ->
  exists l1 l2, l = l1 ++ x :: l2 /\ length l1 = k /\ splice1 k l = l1 ++ l2.
Proof.
  intros H. apply nth_error_split in H. destruct H as (l1 & l2 & E & L).
  exists l1, l2. subst. repeat split. apply splice1_app.
Qed.

Lemma findIndex_body_Some (b : nat) (l : list Die) (idx : nat) :
  findIndex_body b l = Some idx ->
  exists d, nth_error l idx = Some d /\ d_body d = b.
Proof.
  revert idx. induction l as [|x t IH]; intros idx; simpl; [discriminate|].
  destruct (Nat.eqb (d_body x) b) eqn:E.
  - intros H. inversion H. subst. exists x. split; [reflexivity|].
    now apply Nat.eqb_eq.
  - destruct (findIndex_body b t) as [i|]; [|discriminate].
    intros H. inversion H. subst. simpl. now apply IH.
Qed.

Lemma findIndex_body_None (b : nat) (l : list Die) :
  findIndex_body b l = None -> forall d, In d l -> d_body d <> b.
Proof.
  induction l as [|x t IH]; simpl; [tauto|].
  destruct (Nat.eqb (d_body x) b) eqn:E; [discriminate|].
  destruct (findIndex_body b t); [discriminate|].
  intros _ d [H|H].
  - subst. now apply Nat.eqb_neq.
  - now apply IH.
Qed.

Lemma findIndex_body_found (b : nat) (l : list Die) (d : Die) :
  In d l -> d_body d = b -> findIndex_body b l <> None.
Proof.
  intros H E N. eapply findIndex_body_None in N; eauto.
Qed.

(** What the timeout callback does to a well-formed state, in both of
    its branches. *)
Lemma timeout_callback_spec (b : nat) (st : State) :
  wf st ->
  let st' := timeout_callback b st in
  (forall d, In d (diceObjects st) -> d_body d <> b) /\ st' = st
  \/
  exists l1 d l2,
    diceObjects st = l1 ++ d :: l2 /\ d_body d = b /\
    st' = mkState (console st) (stageTopY st) (diceTemplate st) (l1 ++ l2)
            (removeBody b (world_bodies st)) (bodies st) (body_counter st)
            (scene_remove (NDie (d_mesh d)) (scene st)) (meshes st)
            (mesh_counter st) (timers st) (clock_now st) (world_steps st).
Proof.
  intros W. unfold timeout_callback.
  destruct (findIndex_body b (diceObjects st)) as [idx|] eqn:F.
  - right. destruct (findIndex_body_Some _ _ _ F) as (d & Hn & Hb).
    rewrite Hn.
    destruct (nth_error_splice _ _ _ Hn) as (l1 & l2 & E & L & S).
    exists l1, d, l2. repeat split; try assumption.
    cbn [set_diceObjects set_scene set_world_bodies console stageTopY
         diceTemplate diceObjects world_bodies bodies body_counter scene
         meshes mesh_counter timers clock_now world_steps].
    rewrite S. reflexivity.
  - left. split; [|reflexivity].
    now apply findIndex_body_None.
Qed.

Lemma wf_drop_timer (k : nat) (st : State) :
  wf st ->
  (forall d tm, nth_error (timers st) k = Some tm ->
                In d (diceObjects st) -> d_body d <> t_body tm) ->
  wf (set_timers (splice1 k (timers st)) st).
Proof.
  intros W Hd.
  destruct (nth_error (timers st) k) as [tm|] eqn:Hn.
  2:{ assert (E : splice1 k (timers st) = timers st).
      { clear -Hn. revert k Hn.
        induction (timers st) as [|x t IH]; intros [|k]; simpl;
          try reflexivity; try discriminate.
        intros H. f_equal. now apply IH. }
      rewrite E. destruct W; constructor; assumption. }
  destruct (nth_error_splice _ _ _ Hn) as (l1 & l2 & E & L & S).
  rewrite S.
  constructor; cbn [set_timers console stageTopY diceTemplate
                    diceObjects world_bodies bodies body_counter scene meshes
                    mesh_counter timers clock_now world_steps]; try apply W.
  - intros d H. pose proof (wf_dice_timer st W d H) as T.
    rewrite E in T. apply in_app_iff in T. apply in_app_iff.
    destruct T as [T|[T|T]]; [tauto| |tauto].
    exfalso. apply (Hd d tm eq_refl H). subst tm. reflexivity.
  - intros t H. apply (wf_timers_fresh st W). rewrite E.
    apply in_app_iff in H. apply in_app_iff. simpl. tauto.
  - pose proof (wf_timers_nodup st W) as N. rewrite E in N.
    rewrite map_app in *. simpl in N.
    now apply NoDup_remove_1 in N.
Qed.

Lemma wf_timeout_callback_dead (b : nat) (st : State) :
  wf st -> wf (timeout_callback b st).
Proof.
  intros W.
  destruct (timeout_callback_spec b st W)
    as [[_ E]|(l1 & d & l2 & Hl & Hb & E)]; rewrite E; [exact W|].
  pose proof (wf_dice_bodies st W) as NB. rewrite Hl, map_app in NB.
  simpl in NB. pose proof (NoDup_remove_2 _ _ _ NB) as NB2.
  apply NoDup_remove_1 in NB.
  pose proof (wf_dice_meshes st W) as NM. rewrite Hl, map_app in NM.
  simpl in NM. pose proof (NoDup_remove_2 _ _ _ NM) as NM2.
  apply NoDup_remove_1 in NM.
  rewrite <- map_app in NB, NB2, NM, NM2.
  assert (Sub : forall x, In x (l1 ++ l2) -> In x (diceObjects st)).
  { intros x H. rewrite Hl. apply in_app_iff in H. apply in_app_iff.
    simpl. tauto. }
  constructor; cbn [console stageTopY diceTemplate
                    diceObjects world_bodies bodies body_counter scene meshes
                    mesh_counter timers clock_now world_steps]; try apply W.
  - apply remove_first_NoDup, W.
  - intros x H. apply (wf_world_fresh st W). eapply remove_first_In; eauto.
  - apply remove_first_NoDup, W.
  - intros x H. apply (wf_scene_fresh st W). eapply remove_first_In; eauto.
  - exact NB.
  - exact NM.
  - intros x H. apply (wf_dice_fresh st W), Sub, H.
  - intros x H. pose proof (wf_dice_registered st W x (Sub x H)) as [R1 R2].
    split.
    + apply remove_first_keeps; [apply Nat.eqb_eq| |exact R1].
      intros Ex. apply NB2. rewrite Hb, <- Ex. now apply in_map.
    + apply remove_first_keeps; [apply node_eqb_eq| |exact R2].
      intros Ex. inversion Ex as [Em]. apply NM2. rewrite <- Em.
      now apply in_map.
  - intros x H. apply (wf_dice_timer st W), Sub, H.
Qed.

Lemma timeout_callback_timers (b : nat) (T : list Timer) (st : State) :
  timeout_callback b (set_timers T st) = set_timers T (timeout_callback b st).
Proof.
  unfold timeout_callback.
  cbn [set_timers diceObjects].
  destruct (findIndex_body b (diceObjects st)); [|reflexivity].
  destruct (nth_error (diceObjects st) n); reflexivity.
Qed.

Lemma timeout_callback_gone (b : nat) (st : State) :
  wf st -> forall d, In d (diceObjects (timeout_callback b st)) -> d_body d <> b.
Proof.
  intros W.
  destruct (timeout_callback_spec b st W)
    as [[H E]|(l1 & d & l2 & Hl & Hb & E)]; rewrite E; [exact H|].
  cbn [diceObjects]. intros x Hx Ex.
  pose proof (wf_dice_bodies st W) as NB. rewrite Hl, map_app in NB.
  simpl in NB. apply NoDup_remove_2 in NB. apply NB.
  rewrite <- map_app, Hb, <- Ex. now apply in_map.
Qed.

Lemma wf_timeout (k : nat) (tm : Timer) (st : State) :
  wf st -> nth_error (timers st) k = Some tm ->
  wf (timeout_callback (t_body tm) (set_timers (splice1 k (timers st)) st)).
Proof.
  intros W Hn. rewrite timeout_callback_timers.
  assert (T : timers (timeout_callback (t_body tm) st) = timers st).
  { destruct (timeout_callback_spec (t_body tm) st W)
      as [[_ E]|(l1 & d & l2 & _ & _ & E)]; rewrite E; reflexivity. }
  rewrite <- T. apply (wf_drop_timer k (timeout_callback (t_body tm) st)).
  - apply wf_timeout_callback_dead, W.
  - rewrite T. intros d tm' E H. rewrite Hn in E. inversion E. subst tm'.
    exact (timeout_callback_gone (t_body tm) st W d H).
Qed.

Lemma wf_handle (e : Event) (st st' : State) :
  wf st -> handle solver trimesh_throws e st = Some st' -> wf st'.
Proof.
  intros W H. destruct e; simpl in H.
  - inversion H. apply wf_loadStage, W.
  - inversion H. apply wf_log, W.
  - inversion H. apply wf_loadDiceTemplate, W.
  - inversion H. apply wf_log, W.
  - inversion H. apply wf_rollClick, W.
  - inversion H. apply wf_keydown, W.
  - inversion H. apply wf_animate, W.
  - destruct (nth_error (timers st) k) as [tm|] eqn:Hn; [|discriminate].
    destruct (Num.leb _ _); [|discriminate].
    inversion H. now apply wf_timeout.
  - destruct (Num.leb 0 dt); [|discriminate].
    inversion H. apply wf_set_clock_now, W.
Qed.

Lemma reachable_wf (st : State) : reachable solver trimesh_throws st -> wf st.
Proof.
  induction 1 as [|st st' e _ IH H].
  - apply wf_initial.
  - eapply wf_handle; eauto.
Qed.

Lemma run_reachable (es : list Event) (st st' : State) :
  reachable solver trimesh_throws st ->
  run solver trimesh_throws es st = Some st' ->
  reachable solver trimesh_throws st'.
Proof.
  revert st. induction es as [|e t IH]; intros st R H; simpl in H.
  - inversion H. now subst.
  - destruct (handle solver trimesh_throws e st) as [s|] eqn:E; [|discriminate].
    eapply IH; [|exact H]. eapply reach_step; eauto.
Qed.

Lemma frames_reachable (deltas : list Q) (st : State) :
  reachable solver trimesh_throws st ->
  reachable solver trimesh_throws (frames solver deltas st).
Proof.
  revert st. induction deltas as [|delta t IH]; intros st R; simpl.
  - exact R.
  - apply IH. eapply reach_step with (e := EvFrame delta); [exact R|reflexivity].
Qed.

(** ** Spawn requests before the template is ready *)

(** C5.  A call to [spawnDie] made while the die template has not
    loaded returns [null] after logging one warning; the live-dice
    array, the bodies of the world and their state, the scene and its
    visuals, the pending timers and the caller's position vector are
    all left as they were.  The same holds for a click on the roll
    button, which returns before clearing anything. *)
Theorem spawn_before_template_is_rejected
    (position : Vec3) (quaternion : Quat) (velocity : option Vec3)
    (rnd : Vec3) (st : State) :
  diceTemplate st = None ->
  let '(st', position', result) :=
    spawnDie solver position quaternion velocity rnd st in
  result = None
  /\ position' = position
  /\ console st' = console st ++ [WarnTemplateNotLoaded]
  /\ diceObjects st' = diceObjects st
  /\ world_bodies st' = world_bodies st
  /\ bodies st' = bodies st
  /\ scene st' = scene st
  /\ meshes st' = meshes st
  /\ timers st' = timers st
  /\ forall cam dir j1 j2,
       rollClick solver cam dir j1 j2 rnd st = log WarnClickIgnored st.
Proof.
  intros Ht. unfold spawnDie, rollClick. rewrite Ht.
  repeat split; reflexivity.
Qed.

(** ** clearAllDice *)

(** C6.  In every state the script can reach, [clearAllDice] leaves the
    live-dice array empty, every body that was live is no longer among
    the bodies of the world and every visual that was live is no longer
    in the scene, while the bodies that belonged to no die stay; calling
    it a second time changes nothing. *)
Theorem clearAllDice_removes_every_live_die (st : State) :
  reachable solver trimesh_throws st ->
  let st' := clearAllDice st in
  diceObjects st' = []
  /\ (forall d, In d (diceObjects st) ->
        ~ In (d_body d) (world_bodies st')
        /\ ~ In (NDie (d_mesh d)) (scene st'))
  /\ (forall b, In b (world_bodies st) ->
        ~ In b (map d_body (diceObjects st)) -> In b (world_bodies st'))
  /\ clearAllDice st' = st'.
Proof.
  intros R. apply reachable_wf in R.
  destruct (clearAllDice_shape st R) as (Heq & _ & _ & Hin & Hsc).
  cbv zeta. split; [|split; [|split]].
  - rewrite Heq. reflexivity.
  - intros d Hd. split.
    + intros H. apply Hin in H. destruct H as [_ H]. apply H.
      now apply in_map.
    + intros H. apply Hsc in H. destruct H as [_ H]. apply H.
      apply in_map_iff. exists d. now split.
  - intros b Hb Hn. apply Hin. now split.
  - unfold clearAllDice at 1. rewrite Heq at 1. reflexivity.
Qed.

(** ** syncAll *)

Lemma sync_fold_other (bs : nat -> Body) (l : list Die) :
  forall ms i, ~ In i (map d_mesh l) ->
    fold_left (sync_one bs) l ms i = ms i.
Proof.
  induction l as [|x t IH]; intros ms i H; simpl; [reflexivity|].
  simpl in H. rewrite IH by tauto.
  unfold sync_one. apply upd_other. intros E. apply H. now left.
Qed.

Lemma sync_fold_at (bs : nat -> Body) (l : list Die) :
  forall ms d, NoDup (map d_mesh l) -> In d l ->
    m_position (fold_left (sync_one bs) l ms (d_mesh d))
      = b_position (bs (d_body d))
    /\ m_quaternion (fold_left (sync_one bs) l ms (d_mesh d))
      = b_quaternion (bs (d_body d)).
Proof.
  induction l as [|x t IH]; intros ms d N H; simpl; [contradiction|].
  simpl in N. inversion N as [|? ? Hx Nt]. subst.
  destruct H as [H|H].
  - subst x. rewrite sync_fold_other by exact Hx.
    unfold sync_one. rewrite upd_same. split; reflexivity.
  - now apply IH.
Qed.

Lemma syncAll_synced (st : State) : wf st -> synced (syncAll st).
Proof.
  intros W d Hd. unfold syncAll in *. cbn [set_meshes meshes bodies diceObjects] in *.
  apply sync_fold_at; [apply W|exact Hd].
Qed.

(** C8.  In every state the script can reach, [syncAll] leaves every
    live die's visual with the position and orientation its body has
    at that moment and changes neither the bodies nor the world nor the
    live-dice array: the copy goes from body to visual only.  Hence,
    after any number of frames, a further frame whose physics step
    completes ends with every visual equal to its body as that step
    left it. *)
Theorem sync_copies_body_onto_visual (st : State) :
  reachable solver trimesh_throws st ->
  (synced (syncAll st)
   /\ bodies (syncAll st) = bodies st
   /\ world_bodies (syncAll st) = world_bodies st
   /\ diceObjects (syncAll st) = diceObjects st)
  /\ forall (deltas : list Q) (delta : Q),
       let st1 := frames solver deltas st in
       let r := solver (world_steps st1) (1 / 60) (Num.min 0.02 delta) 10%nat
                       (world_bodies st1) (bodies st1) in
       sr_threw r = false ->
       synced (animate solver delta st1)
       /\ bodies (animate solver delta st1) = sr_bodies r.
Proof.
  intros R. split.
  - split; [apply syncAll_synced, reachable_wf, R|].
    split; [|split]; reflexivity.
  - intros deltas delta st1 r Hr.
    pose proof (reachable_wf _ (frames_reachable deltas st R)) as W.
    fold st1 in W.
    unfold animate, world_step. fold r. rewrite Hr.
    split; [|reflexivity].
    apply syncAll_synced, wf_set_world_steps, wf_set_bodies, W.
Qed.

(** ** Placement *)

Lemma vec3_eta (v : Vec3) : mkVec3 (vx v) (vy v) (vz v) = v.
Proof. destruct v; reflexivity. Qed.

Lemma scan_step_ext (ms ms' : nat -> Mesh) (p : Vec3) (r h : Q) (d : Die) :
  ms (d_mesh d) = ms' (d_mesh d) -> scan_step ms p r h d = scan_step ms' p r h d.
Proof.
  intros E. unfold scan_step, nearby, otherTop, otherHalf. now rewrite E.
Qed.

Lemma highest_top_ext (ms ms' : nat -> Mesh) (p : Vec3) (r : Q) (l : list Die) :
  (forall d, In d l -> ms (d_mesh d) = ms' (d_mesh d)) ->
  forall s, highest_top ms s p r l = highest_top ms' s p r l.
Proof.
  unfold highest_top. induction l as [|x t IH]; intros H s; simpl; [reflexivity|].
  rewrite (scan_step_ext ms ms') by (apply H; now left).
  apply IH. intros d Hd. apply H. now right.
Qed.

Lemma scan_step_ge (ms : nat -> Mesh) (p : Vec3) (r h : Q) (d : Die) :
  h <= scan_step ms p r h d.
Proof.
  unfold scan_step.
  destruct (nearby ms p r d); simpl; [|lra].
  destruct (Num.ltb h (otherTop ms d)) eqn:E; [|lra].
  apply ltb_lt in E. lra.
Qed.

Lemma highest_top_ge_start (ms : nat -> Mesh) (p : Vec3) (r : Q) (l : list Die) :
  forall s, s <= highest_top ms s p r l.
Proof.
  unfold highest_top. induction l as [|x t IH]; intros s; simpl; [lra|].
  eapply Qle_trans; [apply (scan_step_ge ms p r s x)|apply IH].
Qed.

Lemma highest_top_ge_nearby (ms : nat -> Mesh) (p : Vec3) (r : Q) (l : list Die) :
  forall s d, In d l -> nearby ms p r d = true ->
    otherTop ms d <= highest_top ms s p r l.
Proof.
  induction l as [|x t IH]; intros s d H N; [contradiction|].
  destruct H as [H|H].
  - subst x. unfold highest_top. simpl.
    eapply Qle_trans; [|apply (highest_top_ge_start ms p r t)].
    unfold scan_step. rewrite N. simpl.
    destruct (Num.ltb s (otherTop ms d)) eqn:E; [lra|].
    now apply ltb_ge in E.
  - unfold highest_top. simpl. now apply IH.
Qed.

Lemma highest_top_attained (ms : nat -> Mesh) (p : Vec3) (r : Q) (l : list Die) :
  forall s, highest_top ms s p r l = s
    \/ exists d, In d l /\ nearby ms p r d = true
                 /\ highest_top ms s p r l = otherTop ms d.
Proof.
  induction l as [|x t IH]; intros s; [now left|].
  unfold highest_top. simpl.
  destruct (IH (scan_step ms p r s x)) as [E|(d & Hd & N & E)].
  - unfold highest_top in E. rewrite E. unfold scan_step.
    destruct (nearby ms p r x) eqn:N; simpl; [|now left].
    destruct (Num.ltb s (otherTop ms x)); [|now left].
    right. exists x. repeat split; [now left|exact N].
  - right. exists d. repeat split; [now right|exact N|exact E].
Qed.

Lemma highest_top_none_nearby (ms : nat -> Mesh) (p : Vec3) (r : Q) (l : list Die) :
  (forall d, In d l -> nearby ms p r d = false) ->
  forall s, highest_top ms s p r l = s.
Proof.
  unfold highest_top. induction l as [|x t IH]; intros H s; simpl; [reflexivity|].
  unfold scan_step at 2. rewrite (H x) by now left. simpl.
  apply IH. intros d Hd. apply H. now right.
Qed.

Lemma otherTop_cached (ms : nat -> Mesh) (d : Die) :
  ~ d_halfHeight d == 0 ->
  otherTop ms d = vy (m_position (ms (d_mesh d))) + d_halfHeight d.
Proof.
  intros H. unfold otherTop, otherHalf.
  apply truthy_nonzero in H. now rewrite H.
Qed.

Lemma square_nonneg (a : Q) : 0 <= a * a.
Proof.
  destruct (Qlt_le_dec a 0) as [H|H].
  - assert (E : a * a == (- a) * (- a)) by ring. rewrite E.
    apply Qmult_le_0_compat; lra.
  - apply Qmult_le_0_compat; assumption.
Qed.

(** The distance test of the scan, spelled out. *)
Lemma nearby_iff (ms : nat -> Mesh) (p : Vec3) (r : Q) (d : Die) :
  let dx := vx (m_position (ms (d_mesh d))) - vx p in
  let dz := vz (m_position (ms (d_mesh d))) - vz p in
  nearby ms p r d = true <-> 0 < r /\ dx * dx + dz * dz < r * r.
Proof.
  clear solver trimesh_throws.
  cbv zeta. unfold nearby, Num.sqrt_lt, Num.leb.
  rewrite !andb_true_iff, !ltb_lt, Qle_bool_iff.
  split; [tauto|]. intros [H1 H2]. repeat split; try assumption.
  pose proof (square_nonneg (vx (m_position (ms (d_mesh d))) - vx p)).
  pose proof (square_nonneg (vz (m_position (ms (d_mesh d))) - vz p)).
  lra.
Qed.

(** The store the scan reads differs from the one at entry only at the
    identifier of the clone, which no live die holds. *)
Lemma spawn_minSafeY_at_scan (tpl : Template) (position : Vec3)
    (quaternion : Quat) (velocity : option Vec3) (m : Mesh) (st : State) :
  wf st ->
  spawn_minSafeY tpl position quaternion
    (set_scene (scene_add (NDie (mesh_counter st)) (scene st))
       (alloc_mesh m (log (LogSpawning position velocity) st)))
  = spawn_minSafeY tpl position quaternion st.
Proof.
  intros W. unfold spawn_minSafeY, spawn_floor.
  cbn [set_scene alloc_mesh log meshes stageTopY diceObjects mesh_counter].
  f_equal. f_equal. apply highest_top_ext.
  intros d Hd. apply upd_other.
  apply (wf_dice_fresh st W) in Hd. lia.
Qed.

Lemma spawn_place_spec (tpl : Template) (position : Vec3) (quaternion : Quat)
    (velocity : option Vec3) (rnd : Vec3) (st : State) :
  wf st ->
  let pl := spawn_place tpl position quaternion velocity rnd st in
  let position' :=
    clamp_position position (spawn_minSafeY tpl position quaternion st) in
  pl_position pl = position'
  /\ b_position (bodies (pl_state pl) (pl_body pl)) = position'
  /\ meshes (pl_state pl) (pl_mesh pl)
     = mkMesh position (OQuat quaternion) (t_size tpl) (t_geometry tpl)
  /\ stageTopY (pl_state pl) = stageTopY st.
Proof.
  intros W. unfold spawn_place.
  cbn [pl_state pl_mesh pl_body pl_position log mesh_counter].
  rewrite (spawn_minSafeY_at_scan tpl position quaternion velocity _ st W).
  split; [reflexivity|]. split; [|split; [|reflexivity]].
  - cbn [set_world_bodies alloc_body set_scene alloc_mesh log bodies
         body_counter].
    rewrite upd_same. destruct velocity; cbn; apply vec3_eta.
  - cbn [set_world_bodies alloc_body set_scene alloc_mesh log meshes
         mesh_counter].
    apply upd_same.
Qed.

Lemma clamp_position_y (p : Vec3) (m : Q) :
  vx (clamp_position p m) = vx p
  /\ vz (clamp_position p m) = vz p
  /\ vy (clamp_position p m) = (if Num.ltb (vy p) m then m else vy p)
  /\ m <= vy (clamp_position p m).
Proof.
  unfold clamp_position. destruct (Num.ltb (vy p) m) eqn:E; simpl.
  - repeat split; lra.
  - apply ltb_ge in E. repeat split; assumption.
Qed.

Lemma click_dropY_clear (tpl : Template) (s : Q) :
  s + t_halfHeight tpl + 1.5 <= click_dropY tpl s.
Proof.
  unfold click_dropY.
  pose proof (or_else_zero s) as Hs.
  set (dieHalf := if Num.truthy (t_halfHeight tpl) then t_halfHeight tpl else 0.6).
  pose proof (max_l 1.5 (dieHalf * 2.0)) as Hm.
  assert (Hd : t_halfHeight tpl <= dieHalf).
  { unfold dieHalf. destruct (Num.truthy (t_halfHeight tpl)) eqn:E; [lra|].
    unfold Num.truthy in E. apply negb_false_iff, Qeq_bool_iff in E. lra. }
  lra.
Qed.

(** C3.  When [spawnDie] runs in a state of the script, the floor its
    placement stands on, from which the minimum spawn height is taken,
    is the greatest of the stage top and the top surfaces of the live
    dice whose horizontal distance to the requested position is below
    the exclusion radius: it is at least each of them and equal to one
    of them.  The top surface of a live die is the Y of its visual plus
    its half-height (the cached one whenever that is non-zero).  In
    particular, with a single live die within the radius whose top is
    at 2.6 above a lower stage top, the floor is 2.6 and not the stage
    top. *)
Theorem placement_floor_is_highest_nearby_top
    (tpl : Template) (position : Vec3) (quaternion : Quat)
    (velocity : option Vec3) (rnd : Vec3) (st : State) :
  wf st ->
  let floor := spawn_floor tpl position quaternion st in
  let r := spawn_horizRadius tpl quaternion in
  let top := otherTop (meshes st) in
  let within := fun d => nearby (meshes st) position r d = true in
  pl_position (spawn_place tpl position quaternion velocity rnd st)
    = clamp_position position
        (floor + vy (spawn_halfExtents tpl quaternion) + 0.02)
  /\ (forall d, ~ d_halfHeight d == 0 ->
        top d = vy (m_position (meshes st (d_mesh d))) + d_halfHeight d)
  /\ (forall d,
        within d <->
        0 < r
        /\ (vx (m_position (meshes st (d_mesh d))) - vx position)
             * (vx (m_position (meshes st (d_mesh d))) - vx position)
           + (vz (m_position (meshes st (d_mesh d))) - vz position)
             * (vz (m_position (meshes st (d_mesh d))) - vz position)
           < r * r)
  /\ stageTopY st <= floor
  /\ (forall d, In d (diceObjects st) -> within d -> top d <= floor)
  /\ (floor = stageTopY st
      \/ exists d, In d (diceObjects st) /\ within d /\ floor = top d)
  /\ (forall d, diceObjects st = [d] -> within d -> top d == 2.6 ->
        stageTopY st < 2.6 -> floor == 2.6 /\ ~ floor == stageTopY st).
Proof.
  intros W floor r top within.
  assert (Hge : forall d, In d (diceObjects st) -> within d -> top d <= floor).
  { intros d Hd Hw.
    exact (highest_top_ge_nearby (meshes st) position r (diceObjects st)
             (stageTopY st) d Hd Hw). }
  assert (Hat : floor = stageTopY st
      \/ exists d, In d (diceObjects st) /\ within d /\ floor = top d).
  { exact (highest_top_attained (meshes st) position r (diceObjects st)
             (stageTopY st)). }
  split; [|split; [|split; [|split; [|split; [|split]]]]].
  - apply (spawn_place_spec tpl position quaternion velocity rnd st W).
  - intros d. exact (otherTop_cached (meshes st) d).
  - intros d. exact (nearby_iff (meshes st) position r d).
  - exact (highest_top_ge_start (meshes st) position r (diceObjects st)
             (stageTopY st)).
  - exact Hge.
  - exact Hat.
  - intros d Hl Hw Ht Hs.
    assert (Hd : In d (diceObjects st)) by (rewrite Hl; now left).
    pose proof (Hge d Hd Hw) as G.
    destruct Hat as [E|(d' & Hd' & _ & E)].
    + rewrite E in G. lra.
    + rewrite Hl in Hd'. destruct Hd' as [Hd'|[]]. subst d'.
      rewrite E. split; lra.
Qed.

(** C4.  When [spawnDie] runs with the template loaded it creates a die
    whose body is registered in the world at an initial height that is
    at least the placement floor plus the half-height of the new die,
    hence at least the stage top plus that half-height and at least the
    top of every live die within the exclusion radius plus that
    half-height. *)
Theorem spawn_never_embedded
    (tpl : Template) (position : Vec3) (quaternion : Quat)
    (velocity : option Vec3) (rnd : Vec3) (st : State) :
  wf st -> diceTemplate st = Some tpl ->
  let pl := spawn_place tpl position quaternion velocity rnd st in
  let y0 := vy (b_position (bodies (pl_state pl) (pl_body pl))) in
  let half := vy (spawn_halfExtents tpl quaternion) in
  snd (spawnDie solver position quaternion velocity rnd st)
    = Some (mkSpawned (pl_mesh pl) (pl_body pl))
  /\ In (pl_body pl) (world_bodies (pl_state pl))
  /\ spawn_floor tpl position quaternion st + half <= y0
  /\ stageTopY st + half <= y0
  /\ forall d, In d (diceObjects st) ->
       nearby (meshes st) position (spawn_horizRadius tpl quaternion) d = true ->
       otherTop (meshes st) d + half <= y0.
Proof.
  intros W Ht pl y0 half.
  destruct (spawn_place_spec tpl position quaternion velocity rnd st W)
    as (_ & Hb & _ & _).
  destruct (spawn_place_shape tpl position quaternion velocity rnd st W)
    as (Hs & Hm & Hbd & _).
  assert (Hy : spawn_floor tpl position quaternion st + half + 0.02 <= y0).
  { unfold y0, pl. rewrite Hb. apply clamp_position_y. }
  split; [|split; [|split; [|split]]].
  - unfold spawnDie. rewrite Ht. reflexivity.
  - unfold pl. rewrite Hs, Hbd. cbn [world_bodies].
    apply in_app_iff. right. now left.
  - lra.
  - pose proof (highest_top_ge_start (meshes st) position
                  (spawn_horizRadius tpl quaternion) (diceObjects st)
                  (stageTopY st)) as G.
    unfold spawn_floor in Hy. lra.
  - intros d Hd N.
    pose proof (highest_top_ge_nearby (meshes st) position
                  (spawn_horizRadius tpl quaternion) (diceObjects st)
                  (stageTopY st) d Hd N) as G.
    unfold spawn_floor in Hy. lra.
Qed.

(** C1 (as amended).  When [spawnDie] places a die and no live die is
    within the exclusion radius, the body starts at the requested X and
    Z and at the greater of the requested Y and stage top + half-height
    + 0.02: never below that minimum, exactly at it when the requested
    Y does not exceed it, and at the requested Y otherwise.  The roll
    button requests stage top + half-height + max(1.5, 2 x half-height),
    which is at least 1.48 above the minimum, so a die spawned from the
    button starts exactly at that requested height. *)
Theorem spawn_height_without_neighbours
    (tpl : Template) (position : Vec3) (quaternion : Quat)
    (velocity : option Vec3) (rnd : Vec3) (st : State) :
  wf st ->
  (forall d, In d (diceObjects st) ->
     nearby (meshes st) position (spawn_horizRadius tpl quaternion) d = false) ->
  let pl := spawn_place tpl position quaternion velocity rnd st in
  let p0 := b_position (bodies (pl_state pl) (pl_body pl)) in
  let minY := stageTopY st + vy (spawn_halfExtents tpl quaternion) + 0.02 in
  vx p0 = vx position
  /\ vz p0 = vz position
  /\ vy p0 = (if Num.ltb (vy position) minY then minY else vy position)
  /\ minY <= vy p0
  /\ (vy position <= minY -> vy p0 == minY)
  /\ (minY <= vy position -> vy p0 = vy position)
  /\ (forall cam dir,
        diceTemplate st = Some tpl -> quaternion = quat_identity ->
        position = click_position tpl cam dir (stageTopY st) ->
        vy p0 = click_dropY tpl (stageTopY st) /\ minY + 1.48 <= vy p0).
Proof.
  intros W Hn pl p0 minY.
  destruct (spawn_place_spec tpl position quaternion velocity rnd st W)
    as (_ & Hb & _ & _).
  assert (Hm : spawn_minSafeY tpl position quaternion st = minY).
  { unfold spawn_minSafeY, spawn_floor, minY.
    now rewrite highest_top_none_nearby. }
  unfold p0, pl. rewrite Hb, Hm.
  destruct (clamp_position_y position minY) as (Hx & Hz & Hy & Hge).
  rewrite Hx, Hz, Hy.
  split; [reflexivity|]. split; [reflexivity|]. split; [reflexivity|].
  split; [now rewrite <- Hy|].
  assert (Hhi : minY <= vy position ->
                (if Num.ltb (vy position) minY then minY else vy position)
                = vy position).
  { intros H. destruct (Num.ltb (vy position) minY) eqn:E; [|reflexivity].
    apply ltb_lt in E. lra. }
  split; [|split; [exact Hhi|]].
  - intros H. destruct (Num.ltb (vy position) minY) eqn:E; [reflexivity|].
    apply ltb_ge in E. lra.
  - intros cam dir Ht Hq Hp.
    pose proof (click_dropY_clear tpl (stageTopY st)) as Hc.
    rewrite (wf_template st W tpl Ht) in Hc.
    assert (Hv : vy position = click_dropY tpl (stageTopY st))
      by (rewrite Hp; reflexivity).
    assert (Hmin : minY + 1.48 <= vy position).
    { rewrite Hv. unfold minY, spawn_halfExtents, spawn_size.
      rewrite Hq. cbn [vy]. lra. }
    rewrite Hhi by lra. split; [exact Hv|exact Hmin].
Qed.

(** ** The pre-roll and the corrective check *)

Lemma corrective_check_spec (m b : nat) (he : Vec3) (st : State) :
  let y := vy (b_position (bodies st b)) in
  let thr := settle_minSafeY (stageTopY st) he in
  let st' := corrective_check m b he st in
  vy (b_position (bodies st' b)) = (if Num.ltb y thr then thr else y)
  /\ m_position (meshes st' m)
     = (if Num.ltb y thr then set_vy (m_position (meshes st m)) thr
        else m_position (meshes st m)).
Proof.
  cbv zeta. unfold corrective_check.
  destruct (Num.ltb _ _); [|split; reflexivity].
  cbn [set_meshes set_bodies bodies meshes]. rewrite !upd_same.
  split; reflexivity.
Qed.

Lemma settle_minSafeY_clear (s : Q) (he : Vec3) :
  s + vy he + 0.05 <= settle_minSafeY s he.
Proof.
  unfold settle_minSafeY.
  pose proof (max_r (vx he) (vy he)).
  pose proof (max_l (Num.max (vx he) (vy he)) (vz he)).
  lra.
Qed.

Lemma spawn_place_clone (tpl : Template) (position : Vec3) (quaternion : Quat)
    (velocity : option Vec3) (rnd : Vec3) (st : State) :
  let pl := spawn_place tpl position quaternion velocity rnd st in
  meshes (pl_state pl) (pl_mesh pl)
    = mkMesh position (OQuat quaternion) (t_size tpl) (t_geometry tpl)
  /\ stageTopY (pl_state pl) = stageTopY st
  /\ pl_halfExtents pl = spawn_halfExtents tpl quaternion.
Proof.
  unfold spawn_place.
  cbn [pl_state pl_mesh pl_halfExtents set_world_bodies alloc_body set_scene
       alloc_mesh log meshes mesh_counter stageTopY].
  rewrite upd_same. repeat split.
Qed.

Lemma spawnDie_settled (tpl : Template) (position : Vec3) (quaternion : Quat)
    (velocity : option Vec3) (rnd : Vec3) (st : State) :
  diceTemplate st = Some tpl ->
  let pl := spawn_place tpl position quaternion velocity rnd st in
  let st1 := preroll solver 6 (pl_state pl) in
  let y1 := vy (b_position (bodies st1 (pl_body pl))) in
  let thr := settle_minSafeY (stageTopY st) (spawn_halfExtents tpl quaternion) in
  let st' := fst (fst (spawnDie solver position quaternion velocity rnd st)) in
  vy (b_position (bodies st' (pl_body pl))) = (if Num.ltb y1 thr then thr else y1)
  /\ m_position (meshes st' (pl_mesh pl))
     = (if Num.ltb y1 thr then set_vy position thr else position).
Proof.
  intros Ht pl st1 y1 thr st'.
  destruct (spawn_place_clone tpl position quaternion velocity rnd st)
    as (Hm & Hs & Hh). fold pl in Hm, Hs, Hh.
  assert (E1 : stageTopY st1 = stageTopY st).
  { unfold st1. rewrite preroll_frame.
    cbn [set_world_steps set_bodies stageTopY]. exact Hs. }
  assert (E2 : meshes st1 = meshes (pl_state pl)).
  { unfold st1. rewrite preroll_frame. reflexivity. }
  pose proof (corrective_check_spec (pl_mesh pl) (pl_body pl)
                (pl_halfExtents pl) st1) as C.
  cbv zeta in C. rewrite E1, E2, Hm, Hh in C. cbn [m_position] in C.
  unfold st', spawnDie. rewrite Ht. exact C.
Qed.

(** C2 (as amended).  When [spawnDie] runs with the template loaded, it
    steps the world up to six times right after adding the body, and a
    second check then compares the body's height with stage top + the
    largest half-extent of the die + 0.05: a body found below that value
    is lifted to it, together with its visual, and a body found at or
    above it is left where the solver put it.  The body therefore ends
    the call at least 0.05 above stage top + half-height; the tops of
    nearby dice play no part in this second check.  When no nearby die
    has raised the placement floor above the stage top, the body
    therefore ends the call above placement floor + half-height. *)
Theorem settle_lifts_above_stage
    (tpl : Template) (position : Vec3) (quaternion : Quat)
    (velocity : option Vec3) (rnd : Vec3) (st : State) :
  diceTemplate st = Some tpl ->
  let pl := spawn_place tpl position quaternion velocity rnd st in
  let st1 := preroll solver 6 (pl_state pl) in
  let y1 := vy (b_position (bodies st1 (pl_body pl))) in
  let half := vy (spawn_halfExtents tpl quaternion) in
  let thr := settle_minSafeY (stageTopY st) (spawn_halfExtents tpl quaternion) in
  let st' := fst (fst (spawnDie solver position quaternion velocity rnd st)) in
  let y' := vy (b_position (bodies st' (pl_body pl))) in
  y' = (if Num.ltb y1 thr then thr else y1)
  /\ thr <= y'
  /\ stageTopY st + half + 0.05 <= y'
  /\ vy (m_position (meshes st' (pl_mesh pl)))
     = (if Num.ltb y1 thr then thr else vy position)
  /\ (spawn_floor tpl position quaternion st == stageTopY st ->
      spawn_floor tpl position quaternion st + half + 0.05 <= y').
Proof.
  intros Ht pl st1 y1 half thr st' y'.
  destruct (spawnDie_settled tpl position quaternion velocity rnd st Ht)
    as [Hy Hm].
  fold pl st1 y1 thr st' in Hy, Hm. fold y' in Hy.
  assert (Hge : thr <= y').
  { rewrite Hy. destruct (Num.ltb y1 thr) eqn:E; [lra|].
    now apply ltb_ge in E. }
  pose proof (settle_minSafeY_clear (stageTopY st)
                (spawn_halfExtents tpl quaternion)) as Hc.
  fold thr half in Hc.
  split; [exact Hy|]. split; [exact Hge|]. split; [lra|].
  split; [rewrite Hm; destruct (Num.ltb y1 thr); reflexivity|].
  intros Hf. rewrite Hf. lra.
Qed.

(** C10 (as amended).  When [spawnDie] runs with the template loaded and
    the requested Y is below the safe minimum (placement floor +
    half-height + 0.02), the caller's position vector comes back with
    its Y overwritten by that minimum, the body is created there, and
    the clone is created at the requested, unclamped position.  The
    clone keeps that position through the pre-roll; the corrective
    check that follows overwrites the clone's Y with stage top + largest
    half-extent + 0.05 whenever it lifts the body, which it always does
    when the floor is the stage top and the solver has not raised the
    body. *)
Theorem clamp_overwrites_callers_vector
    (tpl : Template) (position : Vec3) (quaternion : Quat)
    (velocity : option Vec3) (rnd : Vec3) (st : State) :
  wf st -> diceTemplate st = Some tpl ->
  vy position < spawn_minSafeY tpl position quaternion st ->
  let minSafeY := spawn_minSafeY tpl position quaternion st in
  let pl := spawn_place tpl position quaternion velocity rnd st in
  let st1 := preroll solver 6 (pl_state pl) in
  let y1 := vy (b_position (bodies st1 (pl_body pl))) in
  let thr := settle_minSafeY (stageTopY st) (spawn_halfExtents tpl quaternion) in
  let st' := fst (fst (spawnDie solver position quaternion velocity rnd st)) in
  snd (fst (spawnDie solver position quaternion velocity rnd st))
    = set_vy position minSafeY
  /\ b_position (bodies (pl_state pl) (pl_body pl)) = set_vy position minSafeY
  /\ m_position (meshes (pl_state pl) (pl_mesh pl)) = position
  /\ m_position (meshes st1 (pl_mesh pl)) = position
  /\ m_position (meshes st' (pl_mesh pl))
     = (if Num.ltb y1 thr then set_vy position thr else position)
  /\ (spawn_floor tpl position quaternion st = stageTopY st ->
      y1 <= minSafeY ->
      m_position (meshes st' (pl_mesh pl)) = set_vy position thr).
Proof.
  intros W Ht Hlt minSafeY pl st1 y1 thr st'.
  destruct (spawn_place_spec tpl position quaternion velocity rnd st W)
    as (Hp & Hb & Hm & _).
  fold pl minSafeY in Hp, Hb, Hm.
  assert (Hc : clamp_position position minSafeY = set_vy position minSafeY).
  { unfold clamp_position. apply ltb_lt in Hlt. fold minSafeY in Hlt.
    now rewrite Hlt. }
  destruct (spawnDie_settled tpl position quaternion velocity rnd st Ht)
    as [_ Hs].
  fold pl st1 y1 thr st' in Hs.
  split; [|split; [|split; [|split; [|split]]]].
  - unfold spawnDie. rewrite Ht. cbn [fst snd]. fold pl. now rewrite Hp.
  - now rewrite Hb.
  - now rewrite Hm.
  - unfold st1. rewrite preroll_frame. cbn [set_world_steps set_bodies meshes].
    now rewrite Hm.
  - exact Hs.
  - intros Hf Hy. rewrite Hs.
    pose proof (settle_minSafeY_clear (stageTopY st)
                  (spawn_halfExtents tpl quaternion)) as Hclear.
    fold thr in Hclear.
    assert (Hmin : minSafeY
                   = stageTopY st + vy (spawn_halfExtents tpl quaternion) + 0.02).
    { unfold minSafeY, spawn_minSafeY. now rewrite Hf. }
    rewrite Hmin in Hy.
    assert (L : Num.ltb y1 thr = true) by (apply ltb_lt; lra).
    now rewrite L.
Qed.

(** ** Timed removal *)

Lemma NoDup_map_inj {A B} (f : A -> B) (l : list A) (a b : A) :
  NoDup (map f l) -> In a l -> In b l -> f a = f b -> a = b.
Proof.
  induction l as [|x t IH]; simpl; [tauto|].
  intros N Ha Hb E. inversion N as [|? ? Hx Nt]. subst.
  destruct Ha as [Ha|Ha], Hb as [Hb|Hb].
  - congruence.
  - subst x. exfalso. apply Hx. rewrite E. now apply in_map.
  - subst x. exfalso. apply Hx. rewrite <- E. now apply in_map.
  - now apply IH.
Qed.

(** C7.  In every state the script can reach, each live die has its
    removal pending with a due time 90 000 ms after its birth.  A
    timer only runs once the clock has reached its due time, and it is
    then no longer pending.  If the die it was set for is still live,
    at least 90 000 ms have passed since its birth and the callback
    removes exactly that entry from the live-dice array, its body from
    the world and its visual from the scene, leaving every other die
    registered; if the die was removed earlier, the callback changes
    none of the three collections.  Once 90 000 ms have passed since
    the birth of a live die, its timer can run, and running it removes
    the die. *)
Theorem timed_removal_runs_once_after_90s (st : State) :
  reachable solver trimesh_throws st ->
  (forall d, In d (diceObjects st) ->
     In (mkTimer (d_born d + 90000) (d_body d)) (timers st))
  /\ (forall k st',
       handle solver trimesh_throws (EvTimeout k) st = Some st' ->
       exists tm,
         nth_error (timers st) k = Some tm
         /\ t_due tm <= clock_now st
         /\ ~ In (t_body tm) (map t_body (timers st'))
         /\ (forall d, In d (diceObjects st) -> d_body d = t_body tm ->
               d_born d + 90000 <= clock_now st
               /\ ~ In d (diceObjects st')
               /\ ~ In (d_body d) (world_bodies st')
               /\ ~ In (NDie (d_mesh d)) (scene st')
               /\ S (length (diceObjects st')) = length (diceObjects st))
         /\ (forall d, In d (diceObjects st) -> d_body d <> t_body tm ->
               In d (diceObjects st')
               /\ In (d_body d) (world_bodies st')
               /\ In (NDie (d_mesh d)) (scene st'))
         /\ ((forall d, In d (diceObjects st) -> d_body d <> t_body tm) ->
               diceObjects st' = diceObjects st
               /\ world_bodies st' = world_bodies st
               /\ scene st' = scene st))
  /\ (forall d, In d (diceObjects st) ->
       d_born d + 90000 <= clock_now st ->
       exists k st',
         handle solver trimesh_throws (EvTimeout k) st = Some st'
         /\ ~ In d (diceObjects st')
         /\ ~ In (d_body d) (world_bodies st')
         /\ ~ In (NDie (d_mesh d)) (scene st')).
Proof.
  intros R. pose proof (reachable_wf st R) as W.
  assert (Fire : forall k st',
    handle solver trimesh_throws (EvTimeout k) st = Some st' ->
    exists tm,
      nth_error (timers st) k = Some tm
      /\ t_due tm <= clock_now st
      /\ ~ In (t_body tm) (map t_body (timers st'))
      /\ (forall d, In d (diceObjects st) -> d_body d = t_body tm ->
            d_born d + 90000 <= clock_now st
            /\ ~ In d (diceObjects st')
            /\ ~ In (d_body d) (world_bodies st')
            /\ ~ In (NDie (d_mesh d)) (scene st')
            /\ S (length (diceObjects st')) = length (diceObjects st))
      /\ (forall d, In d (diceObjects st) -> d_body d <> t_body tm ->
            In d (diceObjects st')
            /\ In (d_body d) (world_bodies st')
            /\ In (NDie (d_mesh d)) (scene st'))
      /\ ((forall d, In d (diceObjects st) -> d_body d <> t_body tm) ->
            diceObjects st' = diceObjects st
            /\ world_bodies st' = world_bodies st
            /\ scene st' = scene st)).
  { intros k st' H. simpl in H.
    destruct (nth_error (timers st) k) as [tm|] eqn:Hn; [|discriminate].
    destruct (Num.leb (t_due tm) (clock_now st)) eqn:Hdue; [|discriminate].
    inversion H as [Hst]. clear H.
    exists tm. split; [reflexivity|].
    apply Qle_bool_iff in Hdue. split; [exact Hdue|].
    rewrite timeout_callback_timers.
    destruct (nth_error_splice _ _ _ Hn) as (t1 & t2 & Et & _ & Es).
    assert (Htm : In tm (timers st)) by (eapply nth_error_In; eauto).
    pose proof (wf_timers_nodup st W) as NT.
    assert (Hpend : ~ In (t_body tm) (map t_body (t1 ++ t2))).
    { rewrite Et, map_app in NT. simpl in NT.
      apply NoDup_remove_2 in NT. now rewrite map_app. }
    destruct (timeout_callback_spec (t_body tm) st W)
      as [[Hnone E]|(l1 & d0 & l2 & Hl & Hb & E)]; rewrite E;
      cbn [set_timers console stageTopY diceTemplate diceObjects world_bodies
           bodies body_counter scene meshes mesh_counter timers clock_now world_steps];
      rewrite Es.
    - split; [exact Hpend|]. split; [|split].
      + intros d Hd Eb. exfalso. now apply (Hnone d Hd).
      + intros d Hd _. split; [exact Hd|]. now apply (wf_dice_registered st W).
      + intros _. repeat split.
    - pose proof (wf_dice_bodies st W) as NB.
      pose proof (wf_dice_meshes st W) as NM.
      assert (Hd0 : In d0 (diceObjects st)).
      { rewrite Hl. apply in_app_iff. right. now left. }
      assert (Hout : ~ In (d_body d0) (map d_body (l1 ++ l2))).
      { rewrite Hl, map_app in NB. simpl in NB.
        apply NoDup_remove_2 in NB. now rewrite map_app. }
      split; [exact Hpend|]. split; [|split].
      + intros d Hd Eb.
        assert (d = d0).
        { apply (NoDup_map_inj d_body (diceObjects st)); try assumption.
          congruence. }
        subst d0.
        assert (Etm : tm = mkTimer (d_born d + 90000) (d_body d)).
        { apply (NoDup_map_inj t_body (timers st)); try assumption.
          - now apply (wf_dice_timer st W).
          - simpl. congruence. }
        split; [|split; [|split; [|split]]].
        * rewrite Etm in Hdue. exact Hdue.
        * intros Hin. apply Hout. now apply in_map.
        * rewrite <- Eb. apply remove_first_gone; [apply Nat.eqb_eq|apply W].
        * apply remove_first_gone; [apply node_eqb_eq|apply W].
        * rewrite Hl, !length_app. simpl. lia.
      + intros d Hd Nb.
        assert (Hne : d <> d0) by congruence.
        destruct (wf_dice_registered st W d Hd) as [R1 R2].
        split; [|split].
        * rewrite Hl in Hd. apply in_app_iff in Hd. apply in_app_iff.
          destruct Hd as [Hd|[Hd|Hd]]; [tauto|congruence|tauto].
        * apply remove_first_keeps; [apply Nat.eqb_eq|exact Nb|exact R1].
        * apply remove_first_keeps; [apply node_eqb_eq| |exact R2].
          intros Em. inversion Em as [Em']. apply Hne.
          now apply (NoDup_map_inj d_mesh (diceObjects st)).
      + intros Hnone. exfalso. now apply (Hnone d0 Hd0). }
  split; [apply W|]. split; [exact Fire|].
  intros d Hd Hold.
  pose proof (wf_dice_timer st W d Hd) as Hin.
  apply In_nth_error in Hin. destruct Hin as [k Hk].
  assert (E : exists st', handle solver trimesh_throws (EvTimeout k) st = Some st').
  { simpl. rewrite Hk. cbn [t_due t_body].
    apply Qle_bool_iff in Hold. unfold Num.leb. rewrite Hold. eauto. }
  destruct E as [st' E]. exists k, st'. split; [exact E|].
  destruct (Fire k st' E) as (tm & Hn & _ & _ & Hrm & _).
  rewrite Hk in Hn. inversion Hn. subst tm.
  destruct (Hrm d Hd eq_refl) as (_ & H1 & H2 & H3 & _).
  repeat split; assumption.
Qed.

(** ** Stage construction *)

Lemma stage_mesh_step_built (st : State) (n : Node) (vertices : list Q)
    (indices : list nat) :
  wf st -> collision_input n = Some (vertices, indices) ->
  trimesh_throws vertices indices = false ->
  stage_mesh_step trimesh_throws st n
  = mkState (console st) (stageTopY st) (diceTemplate st) (diceObjects st)
      (world_bodies st ++ [body_counter st])
      (upd (bodies st) (body_counter st) (trimesh_body vertices indices))
      (S (body_counter st)) (scene st) (meshes st) (mesh_counter st)
      (timers st) (clock_now st) (world_steps st).
Proof.
  intros W Hc Ht. unfold stage_mesh_step. rewrite Hc, Ht.
  cbn [alloc_body set_world_bodies console stageTopY diceTemplate diceObjects
       world_bodies bodies body_counter scene meshes mesh_counter timers
       clock_now world_steps].
  now rewrite (addBody_fresh _ _ (fresh_body_absent st W)).
Qed.

Lemma stage_meshes_spec (nodes : list Node) :
  forall st, wf st ->
    let st' := fold_left (stage_mesh_step trimesh_throws) nodes st in
    world_bodies st'
      = world_bodies st
        ++ seq (body_counter st) (length (built trimesh_throws nodes))
    /\ (forall i, (i < body_counter st)%nat -> bodies st' i = bodies st i)
    /\ (forall k vi, nth_error (built trimesh_throws nodes) k = Some vi ->
          bodies st' (body_counter st + k)
          = trimesh_body (fst vi) (snd vi))
    /\ console st'
       = console st
         ++ repeat WarnTrimeshSkipped (length (rejected trimesh_throws nodes))
    /\ stageTopY st' = stageTopY st
    /\ diceObjects st' = diceObjects st
    /\ scene st' = scene st.
Proof.
  induction nodes as [|n t IH]; intros st W.
  - simpl. rewrite !app_nil_r. repeat split; try reflexivity.
    intros [|k] vi H; discriminate.
  - cbn [fold_left].
    pose proof (wf_stage_mesh_step st n W) as W1.
    specialize (IH _ W1). cbv zeta in IH. cbv zeta.
    unfold built, rejected, collidables in *. cbn [flat_map].
    destruct (collision_input n) as [[vertices indices]|] eqn:Hc.
    2:{ assert (E : stage_mesh_step trimesh_throws st n = st)
          by (unfold stage_mesh_step; now rewrite Hc).
        rewrite E in *. exact IH. }
    cbn [app filter fst snd].
    destruct (trimesh_throws vertices indices) eqn:Ht.
    + assert (E : stage_mesh_step trimesh_throws st n
                  = log WarnTrimeshSkipped st)
        by (unfold stage_mesh_step; now rewrite Hc, Ht).
      rewrite E in *.
      destruct IH as (Hw & Hold & Hnew & Hcs & Hy & Hd & Hs).
      cbn [negb log console stageTopY diceObjects scene world_bodies bodies
           body_counter length repeat] in *.
      rewrite Hcs, <- app_assoc. repeat split; assumption.
    + rewrite (stage_mesh_step_built st n vertices indices W Hc Ht) in *.
      destruct IH as (Hw & Hold & Hnew & Hcs & Hy & Hd & Hs).
      cbn [negb console stageTopY diceObjects scene
           world_bodies bodies body_counter length] in *.
      split; [|split; [|split; [|repeat split; assumption]]].
      * rewrite Hw, <- app_assoc. reflexivity.
      * intros i Hi. rewrite Hold by lia. apply upd_other. lia.
      * intros [|k] vi H.
        -- inversion H. subst vi. rewrite Nat.add_0_r.
           rewrite Hold by lia. apply upd_same.
        -- rewrite <- Nat.add_succ_comm. now apply Hnew.
Qed.

(** C9 (as amended).  From a state of the script, the callback of
    [loadStage] measures the stage top, then adds to the world one
    static body carrying an infinite plane at that height with its
    normal along +Y, and only then visits the meshes: each mesh whose
    collision shape can be built gets its own static body, appended
    after the plane in visiting order, and each mesh whose shape
    construction throws is logged with one warning and skipped, without
    affecting the plane or the other meshes. *)
Theorem stage_construction_adds_floor_then_meshes
    (a : StageAsset) (st : State) :
  wf st ->
  let st' := loadStage trimesh_throws a st in
  let y := Num.or_else (s_maxY a) 0 in
  let p := body_counter st in
  let ok := built trimesh_throws (s_nodes a) in
  let failed := rejected trimesh_throws (s_nodes a) in
  stageTopY st' = y
  /\ bodies st' p = ground_body y
  /\ b_mass (ground_body y) = 0
  /\ b_shapes (ground_body y) = [Plane]
  /\ b_position (ground_body y) = mkVec3 0 y 0
  /\ plane_normal (b_quaternion (ground_body y)) = mkVec3 0 1 0
  /\ world_bodies st' = world_bodies st ++ p :: seq (S p) (length ok)
  /\ (forall k vi, nth_error ok k = Some vi ->
        bodies st' (S p + k) = trimesh_body (fst vi) (snd vi))
  /\ console st'
     = console st ++ LogStageTop y
         :: repeat WarnTrimeshSkipped (length failed) ++ [LogStageLoaded].
Proof.
  intros W st' y p ok failed.
  set (st3 := log (LogStageTop y)
                (set_stageTopY y (set_scene (scene_add NStage (scene st)) st))).
  assert (W3 : wf st3)
    by (apply wf_log, wf_set_stageTopY, wf_scene_add_stage, W).
  pose proof (wf_add_body (ground_body (stageTopY st3)) st3 W3) as W4.
  fold (add_ground_plane st3) in W4.
  assert (E4 : add_ground_plane st3
               = mkState (console st ++ [LogStageTop y]) y (diceTemplate st)
                   (diceObjects st) (world_bodies st ++ [p])
                   (upd (bodies st) p (ground_body y)) (S p)
                   (scene_add NStage (scene st)) (meshes st) (mesh_counter st)
                   (timers st) (clock_now st) (world_steps st)).
  { unfold add_ground_plane. cbn [alloc_body world_bodies body_counter].
    rewrite (addBody_fresh _ _ (fresh_body_absent st3 W3)). reflexivity. }
  destruct (stage_meshes_spec (s_nodes a) _ W4)
    as (Hw & Hold & Hnew & Hc & Hy & _ & _).
  fold ok failed in Hw, Hnew, Hc.
  assert (E' : st' = log LogStageLoaded
                       (fold_left (stage_mesh_step trimesh_throws) (s_nodes a)
                                  (add_ground_plane st3))) by reflexivity.
  rewrite E'. clear E'.
  remember (fold_left (stage_mesh_step trimesh_throws) (s_nodes a)
                      (add_ground_plane st3)) as st5 eqn:E5.
  clear E5. rewrite E4 in Hw, Hold, Hnew, Hc, Hy.
  cbn [log console stageTopY world_bodies bodies body_counter]
    in Hw, Hold, Hnew, Hc, Hy |- *.
  split; [exact Hy|]. split.
  { rewrite Hold by lia. apply upd_same. }
  split; [reflexivity|]. split; [reflexivity|]. split; [reflexivity|].
  split; [reflexivity|]. split.
  { rewrite Hw, <- app_assoc. reflexivity. }
  split.
  { intros k vi H. apply (Hnew k vi H). }
  rewrite Hc, <- !app_assoc. reflexivity.
Qed.

End Properties.

(** * Further properties of the script *)

(** ** Aiming: [screenToWorldAtY] *)

(** X1.  When the aim ray is not nearly parallel to the plane and the
    plane lies ahead of the camera along it, [screenToWorldAtY] returns
    the point of the ray at the height of the plane: the camera
    position plus the direction scaled by the distance to the plane. *)
Theorem aim_ray_meets_the_plane (cam dir : Vec3) (planeY : Q) :
  1e-4 <= Num.abs (vy dir) ->
  0 < (planeY - vy cam) / vy dir ->
  screenToWorldAtY cam dir planeY
    = add_scaled cam dir ((planeY - vy cam) / vy dir)
  /\ vy (screenToWorldAtY cam dir planeY) == planeY.
Proof.
  intros Ha Ht. unfold screenToWorldAtY.
  assert (E1 : Num.ltb (Num.abs (vy dir)) 1e-4 = false) by now apply ltb_ge.
  rewrite E1.
  assert (E2 : Num.leb ((planeY - vy cam) / vy dir) 0 = false).
  { unfold Num.leb. destruct (Qle_bool _ 0) eqn:E; [|reflexivity].
    apply Qle_bool_iff in E. lra. }
  rewrite E2. split; [reflexivity|].
  assert (Hd : ~ vy dir == 0).
  { intros E. unfold Num.abs in Ha. rewrite E in Ha. simpl in Ha.
    revert Ha. unfold Qle. simpl. lia. }
  cbn [add_scaled vy]. field. exact Hd.
Qed.

(** X2.  [screenToWorldAtY] always returns a point ahead of the camera
    on the aim ray: the camera position plus the direction scaled by a
    positive distance.  When the ray is nearly parallel to the plane
    (|dir.y| < 0.0001) or the plane is not ahead of the camera, that
    distance is the fixed standoff 3. *)
Theorem aim_point_is_ahead_of_the_camera (cam dir : Vec3) (planeY : Q) :
  (exists k, 0 < k /\ screenToWorldAtY cam dir planeY = add_scaled cam dir k)
  /\ (Num.abs (vy dir) < 1e-4 \/ (planeY - vy cam) / vy dir <= 0 ->
      screenToWorldAtY cam dir planeY = add_scaled cam dir 3.0).
Proof.
  unfold screenToWorldAtY.
  destruct (Num.ltb (Num.abs (vy dir)) 1e-4) eqn:E1.
  - split; [|reflexivity]. exists 3.0. split; [reflexivity|reflexivity].
  - destruct (Num.leb ((planeY - vy cam) / vy dir) 0) eqn:E2.
    + split; [|reflexivity]. exists 3.0. split; reflexivity.
    + assert (Ht : 0 < (planeY - vy cam) / vy dir).
      { unfold Num.leb in E2. apply Qnot_le_lt. intros H.
        apply Qle_bool_iff in H. congruence. }
      split.
      * exists ((planeY - vy cam) / vy dir). split; [exact Ht|reflexivity].
      * apply ltb_ge in E1. intros [H|H]; lra.
Qed.

(** ** Triangle lists of the stage meshes *)

Lemma indices_from_seq (m : nat) :
  forall (r i fuel : nat), (r < 3)%nat -> (m + 1 <= fuel)%nat ->
    indices_from fuel i (i + 3 * m + r)
    = seq i (3 * (m + (if Nat.eqb r 0 then 0 else 1))).
Proof.
  induction m as [|m IH]; intros r i fuel Hr Hf.
  - destruct fuel as [|f]; [lia|].
    replace (i + 3 * 0 + r)%nat with (i + r)%nat by lia.
    cbn [indices_from].
    destruct r as [|r].
    + assert (E : Nat.ltb i (i + 0) = false) by (apply Nat.ltb_ge; lia).
      rewrite E. reflexivity.
    + assert (E : Nat.ltb i (i + S r) = true) by (apply Nat.ltb_lt; lia).
      rewrite E.
      assert (T : indices_from f (i + 3) (i + S r) = []).
      { destruct f as [|f']; [reflexivity|]. cbn [indices_from].
        assert (E' : Nat.ltb (i + 3) (i + S r) = false)
          by (apply Nat.ltb_ge; lia).
        now rewrite E'. }
      rewrite T. cbn [Nat.eqb Nat.add Nat.mul seq].
      rewrite !Nat.add_1_r.
      replace (i + 2)%nat with (S (S i)) by lia. reflexivity.
  - destruct fuel as [|f]; [lia|]. cbn [indices_from].
    assert (E : Nat.ltb i (i + 3 * S m + r) = true)
      by (apply Nat.ltb_lt; lia).
    rewrite E.
    replace (i + 3 * S m + r)%nat with ((i + 3) + 3 * m + r)%nat by lia.
    rewrite IH by lia.
    replace (3 * (S m + (if Nat.eqb r 0 then 0 else 1)))%nat
      with (S (S (S (3 * (m + (if Nat.eqb r 0 then 0 else 1))))))%nat by lia.
    cbn [seq]. rewrite !Nat.add_1_r.
    replace (i + 2)%nat with (S (S i)) by lia.
    replace (i + 3)%nat with (S (S (S i))) by lia. reflexivity.
Qed.

(** X3.  For a vertex count 3m + r with r < 3, the triangle list the
    stage loader builds is 0, 1, 2, ..., one consecutive triple per
    started group of three vertices.  When the count is a multiple of
    three the list is exactly 0 .. count-1, so every index names a
    vertex; otherwise a last triple is added that names the vertex
    3m + 2, which the array does not hold. *)
Theorem sequential_indices_are_consecutive_triples (m r : nat) :
  (r < 3)%nat ->
  sequential_indices (3 * m + r)
    = seq 0 (3 * (m + (if Nat.eqb r 0 then 0 else 1)))
  /\ (r = 0%nat ->
      sequential_indices (3 * m) = seq 0 (3 * m)
      /\ Forall (fun i => (i < 3 * m)%nat) (sequential_indices (3 * m)))
  /\ (r <> 0%nat ->
      In (3 * m + 2)%nat (sequential_indices (3 * m + r))
      /\ (3 * m + r <= 3 * m + 2)%nat).
Proof.
  intros Hr.
  assert (Hseq : forall r', (r' < 3)%nat ->
            sequential_indices (3 * m + r')
            = seq 0 (3 * (m + (if Nat.eqb r' 0 then 0 else 1)))).
  { intros r' Hr'. unfold sequential_indices.
    destruct (Nat.eq_dec (3 * m + r') 0) as [Z|NZ].
    - rewrite Z. assert (m = 0%nat) by lia. assert (r' = 0%nat) by lia.
      subst. reflexivity.
    - pose proof (indices_from_seq m r' 0 (3 * m + r') Hr') as H.
      simpl plus in H. apply H. lia. }
  split; [now apply Hseq|]. split.
  - intros _. pose proof (Hseq 0%nat ltac:(lia)) as H.
    cbn [Nat.eqb] in H.
    replace (3 * m + 0)%nat with (3 * m)%nat in H by lia.
    replace (3 * (m + 0))%nat with (3 * m)%nat in H by lia.
    rewrite H. split; [reflexivity|].
    apply Forall_forall. intros i Hi. apply in_seq in Hi. lia.
  - intros Hn. rewrite (Hseq r Hr).
    assert (E : Nat.eqb r 0 = false) by now apply Nat.eqb_neq.
    rewrite E. split; [|lia]. apply in_seq. lia.
Qed.

Lemma flatten_length (l : list Vec3) : length (flatten l) = (3 * length l)%nat.
Proof.
  unfold flatten. induction l as [|v t IH]; [reflexivity|].
  cbn [flat_map length app]. rewrite IH. lia.
Qed.

Lemma flatten_nth (l : list Vec3) :
  forall k, (k < length l)%nat ->
    nth (3 * k) (flatten l) 0 = vx (nth k l vec_zero)
    /\ nth (3 * k + 1) (flatten l) 0 = vy (nth k l vec_zero)
    /\ nth (3 * k + 2) (flatten l) 0 = vz (nth k l vec_zero).
Proof.
  unfold flatten. induction l as [|v t IH]; intros k Hk; [simpl in Hk; lia|].
  destruct k as [|k].
  - repeat split.
  - simpl in Hk. destruct (IH k ltac:(lia)) as (Hx & Hy & Hz).
    replace (3 * S k)%nat with (S (S (S (3 * k)))) by lia.
    replace (S (S (S (3 * k))) + 1)%nat with (S (S (S (3 * k + 1)))) by lia.
    replace (S (S (S (3 * k))) + 2)%nat with (S (S (S (3 * k + 2)))) by lia.
    cbn [flat_map app nth]. repeat split; assumption.
Qed.

(** X4.  For a stage mesh with an indexed geometry whose indices all
    name a vertex, the collision input holds three coordinates per
    index entry: entry k of the index contributes, at offsets 3k,
    3k + 1 and 3k + 2, the coordinates of the vertex it names after the
    mesh's world matrix has been applied; the triangle list is the
    sequential one over as many vertices as the index has entries. *)
Theorem collision_input_expands_the_index
    (n : Node) (g : Geometry) (pos : list Vec3) (idx : list nat) :
  n_isMesh n = true ->
  n_geometry n = Some g ->
  g_position g = Some pos ->
  g_index g = Some idx ->
  Forall (fun i => (i < length pos)%nat) idx ->
  exists vertices,
    collision_input n = Some (vertices, sequential_indices (length idx))
    /\ length vertices = (3 * length idx)%nat
    /\ forall k, (k < length idx)%nat ->
         let p := applyMatrix4 (n_matrixWorld n)
                               (nth (nth k idx 0%nat) pos vec_zero) in
         nth (3 * k) vertices 0 = vx p
         /\ nth (3 * k + 1) vertices 0 = vy p
         /\ nth (3 * k + 2) vertices 0 = vz p.
Proof.
  intros Hm Hg Hp Hi _.
  unfold collision_input. rewrite Hm, Hg, Hp, Hi. cbn [negb].
  unfold toNonIndexed. rewrite !length_map.
  eexists. split; [reflexivity|]. split.
  - rewrite flatten_length, !length_map. reflexivity.
  - intros k Hk.
    set (p := applyMatrix4 (n_matrixWorld n)
                           (nth (nth k idx 0%nat) pos vec_zero)).
    pose proof (flatten_nth
                  (map (applyMatrix4 (n_matrixWorld n))
                       (map (fun i => nth i pos vec_zero) idx)) k) as F.
    rewrite !length_map in F. specialize (F Hk).
    assert (E : nth k (map (applyMatrix4 (n_matrixWorld n))
                          (map (fun i => nth i pos vec_zero) idx)) vec_zero = p).
    { rewrite nth_indep with (d' := applyMatrix4 (n_matrixWorld n) vec_zero)
        by (rewrite !length_map; exact Hk).
      rewrite map_nth.
      rewrite nth_indep with (d' := nth 0%nat pos vec_zero)
        by (rewrite length_map; exact Hk).
      rewrite (map_nth (fun i => nth i pos vec_zero) idx 0%nat k).
      reflexivity. }
    rewrite E in F. exact F.
Qed.

Section MoreProperties.

Variable solver : nat -> Q -> Q -> nat -> list nat -> (nat -> Body) -> StepResult.
Variable trimesh_throws : list Q -> list nat -> bool.

(** ** What each handler leaves alone *)

Lemma addBody_keeps (b x : nat) (l : list nat) : In x l -> In x (addBody b l).
Proof.
  unfold addBody. destruct (existsb (Nat.eqb b) l); [tauto|].
  intros H. apply in_app_iff. now left.
Qed.

Lemma stage_mesh_step_frame (st : State) (n : Node) :
  let st' := stage_mesh_step trimesh_throws st n in
  diceObjects st' = diceObjects st
  /\ scene st' = scene st
  /\ timers st' = timers st
  /\ (forall b, In b (world_bodies st) -> In b (world_bodies st')).
Proof.
  cbv zeta. unfold stage_mesh_step.
  destruct (collision_input n) as [[vertices indices]|]; [|tauto].
  destruct (trimesh_throws vertices indices); cbn; [tauto|].
  repeat split; try reflexivity. intros b. apply addBody_keeps.
Qed.

Lemma stage_meshes_frame (nodes : list Node) :
  forall st,
    let st' := fold_left (stage_mesh_step trimesh_throws) nodes st in
    diceObjects st' = diceObjects st
    /\ scene st' = scene st
    /\ timers st' = timers st
    /\ (forall b, In b (world_bodies st) -> In b (world_bodies st')).
Proof.
  induction nodes as [|n t IH]; intros st; [cbn; tauto|].
  cbn [fold_left]. cbv zeta.
  destruct (IH (stage_mesh_step trimesh_throws st n)) as (Hd & Hs & Ht & Hw).
  destruct (stage_mesh_step_frame st n) as (Hd1 & Hs1 & Ht1 & Hw1).
  rewrite Hd, Hs, Ht, Hd1, Hs1, Ht1. repeat split; try reflexivity.
  intros b Hb. apply Hw, Hw1, Hb.
Qed.

Lemma loadStage_frame (a : StageAsset) (st : State) :
  let st' := loadStage trimesh_throws a st in
  diceObjects st' = diceObjects st
  /\ scene st' = scene_add NStage (scene st)
  /\ timers st' = timers st
  /\ (forall b, In b (world_bodies st) -> In b (world_bodies st')).
Proof.
  cbv zeta. unfold loadStage.
  match goal with
  | |- context [fold_left _ _ ?s] =>
      destruct (stage_meshes_frame (s_nodes a) s) as (Hd & Hs & Ht & Hw)
  end.
  cbn [log diceObjects scene timers world_bodies].
  rewrite Hd, Hs, Ht. repeat split; try reflexivity.
  intros b Hb. apply Hw. unfold add_ground_plane.
  cbn [set_world_bodies alloc_body world_bodies log set_stageTopY set_scene].
  apply addBody_keeps, Hb.
Qed.

Lemma animate_frame (delta : Q) (st : State) :
  let st' := animate solver delta st in
  diceObjects st' = diceObjects st
  /\ scene st' = scene st
  /\ timers st' = timers st
  /\ world_bodies st' = world_bodies st
  /\ world_steps st' = S (world_steps st).
Proof.
  cbv zeta. unfold animate, world_step.
  destruct (sr_threw _); repeat split.
Qed.

(** The state a click leaves when the template is loaded. *)
Lemma rollClick_shape (tpl : Template) (cam dir : Vec3) (j1 j2 : Q)
    (rnd : Vec3) (st : State) :
  wf st -> diceTemplate st = Some tpl ->
  let st1 := clearAllDice (log LogRollClicked st) in
  let st' := rollClick solver cam dir j1 j2 rnd st in
  diceObjects st'
    = [mkDie (mesh_counter st) (body_counter st) (clock_now st)
             (vy (spawn_halfExtents tpl quat_identity))]
  /\ world_bodies st' = world_bodies st1 ++ [body_counter st]
  /\ scene st' = scene st1 ++ [NDie (mesh_counter st)]
  /\ timers st' = timers st ++ [mkTimer (clock_now st + 90000) (body_counter st)]
  /\ (forall b, In b (world_bodies st1) <->
                In b (world_bodies st) /\ ~ In b (map d_body (diceObjects st)))
  /\ (forall n, In n (scene st1) <->
                In n (scene st) /\
                ~ In n (map (fun d => NDie (d_mesh d)) (diceObjects st))).
Proof.
  intros W Ht st1 st'.
  assert (Wl : wf (log LogRollClicked st)) by now apply wf_log.
  destruct (clearAllDice_shape solver _ Wl) as (Heq & _ & _ & Hin & Hsc).
  fold st1 in Heq, Hin, Hsc.
  assert (W1 : wf st1) by now apply wf_clearAllDice.
  assert (Ht1 : diceTemplate st1 = Some tpl) by (rewrite Heq; exact Ht).
  destruct (spawnDie_shape solver tpl
              (click_position tpl cam dir (stageTopY st1)) quat_identity
              (Some (click_velocity j1 j2)) rnd st1 Ht1 W1) as [Hs _].
  assert (E : st' = fst (fst (spawnDie solver
                (click_position tpl cam dir (stageTopY st1)) quat_identity
                (Some (click_velocity j1 j2)) rnd st1))).
  { unfold st', rollClick. rewrite Ht. reflexivity. }
  rewrite <- E in Hs.
  assert (P : diceObjects st1 = [] /\ body_counter st1 = body_counter st
              /\ mesh_counter st1 = mesh_counter st
              /\ timers st1 = timers st /\ clock_now st1 = clock_now st)
    by (rewrite Heq; repeat split).
  destruct P as (P1 & P2 & P3 & P4 & P5).
  rewrite P1, P2, P3, P4, P5 in Hs.
  rewrite Hs. cbn [diceObjects world_bodies scene timers app].
  split; [reflexivity|]. split; [reflexivity|]. split; [reflexivity|].
  split; [reflexivity|]. split; [exact Hin|exact Hsc].
Qed.

(** ** One die at a time *)

(** X5.  In every state the script can reach at most one die is live:
    the only handler that spawns a die, the click on the roll button,
    removes all live dice first. *)
Theorem at_most_one_die_is_live (st : State) :
  reachable solver trimesh_throws st -> (length (diceObjects st) <= 1)%nat.
Proof.
  induction 1 as [|st st' e R IH H]; [simpl; lia|].
  pose proof (reachable_wf _ _ st R) as W.
  destruct e; simpl in H.
  - inversion H. destruct (loadStage_frame a st) as (Hd & _). now rewrite Hd.
  - inversion H. exact IH.
  - inversion H. exact IH.
  - inversion H. exact IH.
  - inversion H. destruct (diceTemplate st) as [tpl|] eqn:Ht.
    + destruct (rollClick_shape tpl cam dir j1 j2 rnd st W Ht) as (Hd & _).
      rewrite Hd. simpl. lia.
    + unfold rollClick. rewrite Ht. exact IH.
  - inversion H. unfold keydown. destruct (String.eqb _ _); [|exact IH].
    destruct (clearAllDice_shape solver st W) as (Heq & _). rewrite Heq. simpl. lia.
  - inversion H. destruct (animate_frame delta st) as (Hd & _). now rewrite Hd.
  - destruct (nth_error (timers st) k) as [tm|]; [|discriminate].
    destruct (Num.leb _ _); [|discriminate]. inversion H.
    rewrite timeout_callback_timers. cbn [set_timers diceObjects].
    destruct (timeout_callback_spec solver (t_body tm) st W)
      as [[_ E]|(l1 & d & l2 & Hl & _ & E)]; rewrite E; [exact IH|].
    cbn [diceObjects]. rewrite Hl, length_app in IH.
    rewrite length_app. simpl in IH. lia.
  - destruct (Num.leb 0 dt); [|discriminate]. inversion H. exact IH.
Qed.

(** X6.  In a state the script can reach, with the template loaded, a
    click on the roll button leaves exactly one live die: a new one,
    born at the current time, whose body is in the world, whose visual
    is in the scene and whose removal is pending 90 000 ms ahead.  The
    bodies and visuals of the dice that were live before are gone from
    the world and the scene, and every body that belonged to no die is
    still in the world. *)
Theorem click_replaces_the_live_dice_by_a_new_one
    (tpl : Template) (cam dir : Vec3) (j1 j2 : Q) (rnd : Vec3) (st : State) :
  reachable solver trimesh_throws st -> diceTemplate st = Some tpl ->
  let st' := rollClick solver cam dir j1 j2 rnd st in
  exists d,
    diceObjects st' = [d]
    /\ d_born d = clock_now st
    /\ In (d_body d) (world_bodies st')
    /\ In (NDie (d_mesh d)) (scene st')
    /\ In (mkTimer (clock_now st + 90000) (d_body d)) (timers st')
    /\ (forall d0, In d0 (diceObjects st) ->
          d_body d0 <> d_body d /\ d_mesh d0 <> d_mesh d
          /\ ~ In (d_body d0) (world_bodies st')
          /\ ~ In (NDie (d_mesh d0)) (scene st'))
    /\ (forall b, In b (world_bodies st) ->
          ~ In b (map d_body (diceObjects st)) -> In b (world_bodies st')).
Proof.
  intros R Ht st'. pose proof (reachable_wf _ _ st R) as W.
  destruct (rollClick_shape tpl cam dir j1 j2 rnd st W Ht)
    as (Hd & Hw & Hs & Htm & Hin & Hsc).
  fold st' in Hd, Hw, Hs, Htm.
  eexists. split; [exact Hd|]. cbn [d_born d_body d_mesh].
  split; [reflexivity|]. rewrite Hw, Hs, Htm.
  split; [apply in_app_iff; right; now left|].
  split; [apply in_app_iff; right; now left|].
  split; [apply in_app_iff; right; now left|].
  split.
  - intros d0 Hd0. destruct (wf_dice_fresh st W d0 Hd0) as [Fb Fm].
    split; [lia|]. split; [lia|]. split.
    + intros H. apply in_app_iff in H. destruct H as [H|[H|[]]]; [|lia].
      apply Hin in H. destruct H as [_ H]. apply H. now apply in_map.
    + intros H. apply in_app_iff in H. destruct H as [H|[H|[]]].
      * apply Hsc in H. destruct H as [_ H]. apply H.
        apply in_map_iff. exists d0. now split.
      * inversion H. lia.
  - intros b Hb Hn. apply in_app_iff. left. apply Hin. now split.
Qed.

(** X7.  In every state the script can reach, each live die's body
    occurs exactly once among the bodies of the world and its visual
    exactly once among the children of the scene, and no other live die
    shares its body or its visual. *)
Theorem live_die_is_registered_exactly_once (st : State) (d : Die) :
  reachable solver trimesh_throws st -> In d (diceObjects st) ->
  (exists l1 l2, world_bodies st = l1 ++ d_body d :: l2
                 /\ ~ In (d_body d) l1 /\ ~ In (d_body d) l2)
  /\ (exists l1 l2, scene st = l1 ++ NDie (d_mesh d) :: l2
                    /\ ~ In (NDie (d_mesh d)) l1 /\ ~ In (NDie (d_mesh d)) l2)
  /\ (forall d', In d' (diceObjects st) ->
        d_body d' = d_body d \/ d_mesh d' = d_mesh d -> d' = d).
Proof.
  intros R Hd. pose proof (reachable_wf _ _ st R) as W.
  destruct (wf_dice_registered st W d Hd) as [Hb Hm].
  split; [|split].
  - destruct (in_split _ _ Hb) as (l1 & l2 & E). exists l1, l2.
    split; [exact E|].
    pose proof (wf_world_nodup st W) as N. rewrite E in N.
    apply NoDup_remove_2 in N. rewrite in_app_iff in N. tauto.
  - destruct (in_split _ _ Hm) as (l1 & l2 & E). exists l1, l2.
    split; [exact E|].
    pose proof (wf_scene_nodup st W) as N. rewrite E in N.
    apply NoDup_remove_2 in N. rewrite in_app_iff in N. tauto.
  - intros d' Hd' [E|E].
    + now apply (NoDup_map_inj d_body (diceObjects st)); try apply W.
    + now apply (NoDup_map_inj d_mesh (diceObjects st)); try apply W.
Qed.

(** ** The stage stays *)

(** X8.  In a state the script can reach, no event removes a body that
    belongs to no live die from the world, and no event removes the
    stage from the scene: once built, the floor plane and the static
    stage bodies stay for good. *)
Theorem stage_bodies_are_never_removed (st st' : State) (e : Event) :
  reachable solver trimesh_throws st ->
  handle solver trimesh_throws e st = Some st' ->
  (forall b, In b (world_bodies st) ->
     (forall d, In d (diceObjects st) -> d_body d <> b) ->
     In b (world_bodies st'))
  /\ (In NStage (scene st) -> In NStage (scene st')).
Proof.
  intros R H. pose proof (reachable_wf _ _ st R) as W.
  assert (Hmap : forall b, (forall d, In d (diceObjects st) -> d_body d <> b) ->
                           ~ In b (map d_body (diceObjects st))).
  { intros b Hb Hin. apply in_map_iff in Hin. destruct Hin as (d & E & Hd).
    now apply (Hb d Hd). }
  assert (Hstage : ~ In NStage (map (fun d => NDie (d_mesh d)) (diceObjects st))).
  { intros Hin. apply in_map_iff in Hin. destruct Hin as (d & E & _).
    discriminate. }
  assert (Hclear : forall s, wf s -> diceObjects s = diceObjects st ->
            world_bodies s = world_bodies st -> scene s = scene st ->
            (forall b, In b (world_bodies st) ->
               (forall d, In d (diceObjects st) -> d_body d <> b) ->
               In b (world_bodies (clearAllDice s)))
            /\ (In NStage (scene st) -> In NStage (scene (clearAllDice s)))).
  { intros s Ws Ed Ew Es.
    destruct (clearAllDice_shape solver s Ws) as (_ & _ & _ & Hin & Hsc).
    rewrite Ed, Ew in Hin. rewrite Ed, Es in Hsc. split.
    - intros b Hb Hn. apply Hin. split; [exact Hb|now apply Hmap].
    - intros Hs. apply Hsc. split; [exact Hs|exact Hstage]. }
  destruct e; simpl in H.
  - inversion H. destruct (loadStage_frame a st) as (_ & Hs & _ & Hw).
    split; [intros b Hb _; now apply Hw|].
    intros _. rewrite Hs. unfold scene_add. apply in_app_iff. right. now left.
  - inversion H. split; [intros b Hb _; exact Hb|tauto].
  - inversion H. split; [intros b Hb _; exact Hb|tauto].
  - inversion H. split; [intros b Hb _; exact Hb|tauto].
  - inversion H. destruct (diceTemplate st) as [tpl|] eqn:Ht.
    + destruct (rollClick_shape tpl cam dir j1 j2 rnd st W Ht)
        as (_ & Hw & Hs & _ & Hin & Hsc).
      rewrite Hw, Hs. split.
      * intros b Hb Hn. apply in_app_iff. left. apply Hin.
        split; [exact Hb|now apply Hmap].
      * intros Hst. apply in_app_iff. left. apply Hsc. now split.
    + unfold rollClick. rewrite Ht. split; [intros b Hb _; exact Hb|tauto].
  - inversion H. unfold keydown. destruct (String.eqb _ _).
    + now apply Hclear.
    + split; [intros b Hb _; exact Hb|tauto].
  - inversion H. destruct (animate_frame delta st) as (_ & Hs & _ & Hw & _).
    rewrite Hs, Hw. split; [intros b Hb _; exact Hb|tauto].
  - destruct (nth_error (timers st) k) as [tm|]; [|discriminate].
    destruct (Num.leb _ _); [|discriminate]. inversion H.
    rewrite timeout_callback_timers. cbn [set_timers world_bodies scene].
    destruct (timeout_callback_spec solver (t_body tm) st W)
      as [[_ E]|(l1 & d & l2 & Hl & Hb & E)]; rewrite E.
    + split; [intros b Hb _; exact Hb|tauto].
    + cbn [world_bodies scene]. split.
      * intros b Hin Hn.
        apply remove_first_keeps; [apply Nat.eqb_eq| |exact Hin].
        intros Eb. apply (Hn d); [|congruence].
        rewrite Hl. apply in_app_iff. right. now left.
      * intros Hs. apply remove_first_keeps;
          [apply node_eqb_eq|discriminate|exact Hs].
  - destruct (Num.leb 0 dt); [|discriminate]. inversion H.
    split; [intros b Hb _; exact Hb|tauto].
Qed.

(** ** Frames *)

(** X9.  Whatever the solver, a frame calls [world.step] once, with the
    fixed time step 1/60, at most 10 sub-steps and an elapsed time that
    is never more than 0.02 s: the clock delta when that is at most
    0.02, and 0.02 after any longer pause.  The bodies the frame leaves
    are the ones that call returns for the world's bodies as the frame
    found them, and unless the call throws the visuals of the live dice
    are then brought to these bodies. *)
Theorem frame_delta_is_capped (delta : Q) (st : State) :
  exists elapsed : Q,
    elapsed <= 0.02
    /\ (delta <= 0.02 -> elapsed == delta)
    /\ (0.02 <= delta -> elapsed == 0.02)
    /\ let r := solver (world_steps st) (1 / 60) elapsed 10
                       (world_bodies st) (bodies st) in
       bodies (animate solver delta st) = sr_bodies r
       /\ world_steps (animate solver delta st) = S (world_steps st)
       /\ meshes (animate solver delta st)
          = (if sr_threw r then meshes st
             else fold_left (sync_one (sr_bodies r)) (diceObjects st)
                            (meshes st)).
Proof.
  exists (Num.min 0.02 delta).
  split; [|split; [|split]].
  - clear solver trimesh_throws. unfold Num.min.
    destruct (Num.ltb delta 0.02) eqn:E; [apply ltb_lt in E|]; lra.
  - clear solver trimesh_throws. unfold Num.min. intros H.
    destruct (Num.ltb delta 0.02) eqn:E; [reflexivity|].
    apply ltb_ge in E. lra.
  - clear solver trimesh_throws. unfold Num.min. intros H.
    destruct (Num.ltb delta 0.02) eqn:E; [apply ltb_lt in E; lra|reflexivity].
  - cbv zeta. unfold animate, world_step.
    destruct (sr_threw _); repeat split.
Qed.

(** ** The body [spawnDie] creates *)

Lemma spawn_place_body (tpl : Template) (position : Vec3) (quaternion : Quat)
    (velocity : option Vec3) (rnd : Vec3) (st : State) :
  let pl := spawn_place tpl position quaternion velocity rnd st in
  let body := bodies (pl_state pl) (pl_body pl) in
  b_mass body = 0.3
  /\ b_shapes body = [Box (spawn_halfExtents tpl quaternion)]
  /\ b_quaternion body = OQuat quaternion
  /\ b_velocity body = match velocity with
                       | Some v => mkVec3 (vx v) (vy v) (vz v)
                       | None => vec_zero
                       end
  /\ b_angularVelocity body
     = mkVec3 ((vx rnd - 0.5) * 10) ((vy rnd - 0.5) * 10) ((vz rnd - 0.5) * 10)
  /\ b_allowSleep body = true.
Proof.
  cbv zeta. unfold spawn_place.
  cbn [pl_state pl_body set_world_bodies alloc_body set_scene alloc_mesh log
       bodies body_counter].
  rewrite upd_same. destruct velocity; repeat split.
Qed.

(** X10.  Whatever the requested position, orientation and velocity,
    the body [spawnDie] creates is dynamic (mass 0.3), carries one box
    whose half-extents are half the measured bounding box, may fall
    asleep, and, for draws of [Math.random] in [0, 1), starts with a
    spin of at least -5 and less than 5 about each axis. *)
Theorem spawned_body_spin_is_bounded
    (tpl : Template) (position : Vec3) (quaternion : Quat)
    (velocity : option Vec3) (rnd : Vec3) (st : State) :
  0 <= vx rnd < 1 -> 0 <= vy rnd < 1 -> 0 <= vz rnd < 1 ->
  let pl := spawn_place tpl position quaternion velocity rnd st in
  let body := bodies (pl_state pl) (pl_body pl) in
  b_mass body = 0.3
  /\ b_shapes body = [Box (spawn_halfExtents tpl quaternion)]
  /\ b_allowSleep body = true
  /\ -5 <= vx (b_angularVelocity body) < 5
  /\ -5 <= vy (b_angularVelocity body) < 5
  /\ -5 <= vz (b_angularVelocity body) < 5.
Proof.
  intros Hx Hy Hz pl body.
  destruct (spawn_place_body tpl position quaternion velocity rnd st)
    as (Hm & Hs & _ & _ & Hw & Ha).
  fold pl in Hm, Hs, Hw, Ha. fold body in Hm, Hs, Hw, Ha.
  rewrite Hw. cbn [vx vy vz].
  split; [exact Hm|]. split; [exact Hs|]. split; [exact Ha|].
  repeat split; lra.
Qed.

(** X11.  With the template loaded, the click handler clears the dice
    and spawns one die with the identity orientation, above the aim
    point, with a launch velocity that is purely horizontal and, for
    draws in [0, 1), of at least -0.2 and less than 0.2 along X and
    along Z; the body is created with exactly that velocity. *)
Theorem click_launch_is_a_small_horizontal_jitter
    (tpl : Template) (cam dir : Vec3) (j1 j2 : Q) (rnd : Vec3) (st : State) :
  diceTemplate st = Some tpl ->
  0 <= j1 < 1 -> 0 <= j2 < 1 ->
  let st1 := clearAllDice (log LogRollClicked st) in
  let position := click_position tpl cam dir (stageTopY st1) in
  let pl := spawn_place tpl position quat_identity
                        (Some (click_velocity j1 j2)) rnd st1 in
  rollClick solver cam dir j1 j2 rnd st
    = fst (fst (spawnDie solver position quat_identity
                         (Some (click_velocity j1 j2)) rnd st1))
  /\ b_velocity (bodies (pl_state pl) (pl_body pl)) = click_velocity j1 j2
  /\ vy (click_velocity j1 j2) = 0
  /\ -0.2 <= vx (click_velocity j1 j2) < 0.2
  /\ -0.2 <= vz (click_velocity j1 j2) < 0.2.
Proof.
  intros Ht H1 H2 st1 position pl.
  split; [unfold rollClick; rewrite Ht; reflexivity|].
  destruct (spawn_place_body tpl position quat_identity
              (Some (click_velocity j1 j2)) rnd st1) as (_ & _ & _ & Hv & _).
  fold pl in Hv. split; [rewrite Hv; reflexivity|].
  split; [reflexivity|]. unfold click_velocity. cbn [vx vz].
  repeat split; lra.
Qed.

(** ** The pre-roll *)

Lemma preroll_steps (n : nat) :
  forall st,
    (world_steps st <= world_steps (preroll solver n st) <= world_steps st + n)%nat
    /\ ((0 < n)%nat -> (world_steps st < world_steps (preroll solver n st))%nat)
    /\ ((forall c dt el ms w bs, sr_threw (solver c dt el ms w bs) = false) ->
        world_steps (preroll solver n st) = (world_steps st + n)%nat).
Proof.
  induction n as [|n IH]; intros st.
  - simpl. repeat split; lia.
  - cbn [preroll]. unfold world_step.
    set (st1 := set_world_steps _ _).
    assert (E1 : world_steps st1 = S (world_steps st)) by reflexivity.
    destruct (IH st1) as (Hb & _ & Hn). rewrite E1 in Hb, Hn.
    destruct (sr_threw _) eqn:T.
    + rewrite E1. split; [lia|]. split; [lia|].
      intros Hno. rewrite Hno in T. discriminate.
    + split; [lia|]. split; [lia|].
      intros Hno. rewrite (Hn Hno). lia.
Qed.

(** X12.  A call to [spawnDie] that creates a die steps the world at
    least once and at most six times before it returns: six times when
    no step throws, and a frame steps it exactly once. *)
Theorem spawn_prerolls_at_most_six_steps
    (tpl : Template) (position : Vec3) (quaternion : Quat)
    (velocity : option Vec3) (rnd : Vec3) (st : State) :
  diceTemplate st = Some tpl ->
  let st' := fst (fst (spawnDie solver position quaternion velocity rnd st)) in
  (world_steps st + 1 <= world_steps st' <= world_steps st + 6)%nat
  /\ ((forall c dt el ms w bs, sr_threw (solver c dt el ms w bs) = false) ->
      world_steps st' = (world_steps st + 6)%nat)
  /\ (forall delta, world_steps (animate solver delta st) = S (world_steps st)).
Proof.
  intros Ht st'.
  assert (E : world_steps st'
              = world_steps (preroll solver 6
                  (pl_state (spawn_place tpl position quaternion velocity rnd st)))).
  { unfold st', spawnDie. rewrite Ht. cbn [fst].
    unfold spawn_register. cbn [set_timers set_diceObjects world_steps].
    rewrite spawn_settle_frame. reflexivity. }
  assert (E0 : world_steps
                 (pl_state (spawn_place tpl position quaternion velocity rnd st))
               = world_steps st) by reflexivity.
  destruct (preroll_steps 6
              (pl_state (spawn_place tpl position quaternion velocity rnd st)))
    as (Hb & Hp & Hn).
  rewrite E0 in Hb, Hp, Hn. rewrite E.
  split; [specialize (Hp ltac:(lia)); lia|]. split; [exact Hn|].
  intros delta. apply animate_frame.
Qed.

(** ** Clearing and the timers left behind *)

(** X13.  In a state the script can reach, a key other than R (in
    either case) changes nothing.  The R key removes every live die
    and cancels no timer; every timer that runs afterwards finds its
    die gone and leaves the live-dice array, the world and the scene as
    they are. *)
Theorem r_key_clears_and_leaves_harmless_timers (key : string) (st : State) :
  reachable solver trimesh_throws st ->
  (toLowerCase key <> "r"%string -> keydown key st = st)
  /\ (toLowerCase key = "r"%string ->
      let st1 := keydown key st in
      diceObjects st1 = []
      /\ timers st1 = timers st
      /\ forall k st2,
           handle solver trimesh_throws (EvTimeout k) st1 = Some st2 ->
           diceObjects st2 = []
           /\ world_bodies st2 = world_bodies st1
           /\ scene st2 = scene st1).
Proof.
  intros R. pose proof (reachable_wf _ _ st R) as W. split.
  - intros H. unfold keydown. apply String.eqb_neq in H. now rewrite H.
  - intros H. unfold keydown. apply String.eqb_eq in H. rewrite H.
    destruct (clearAllDice_shape solver st W) as (Heq & _).
    cbv zeta.
    assert (Ed : diceObjects (clearAllDice st) = []) by (rewrite Heq; reflexivity).
    split; [exact Ed|]. split; [rewrite Heq; reflexivity|].
    intros k st2 Hh. simpl in Hh.
    destruct (nth_error (timers (clearAllDice st)) k) as [tm|]; [|discriminate].
    destruct (Num.leb _ _); [|discriminate]. inversion Hh.
    unfold timeout_callback. cbn [set_timers diceObjects].
    rewrite Ed. cbn [findIndex_body diceObjects world_bodies scene].
    repeat split; assumption.
Qed.

(** X14.  In a state the script can reach, with the template loaded, a
    click on the roll button cancels none of the timers that were
    pending and adds one for the new die; when one of the older timers
    runs afterwards, the new die stays live, with its body in the world
    and its visual in the scene. *)
Theorem timers_of_replaced_dice_spare_the_new_die
    (tpl : Template) (cam dir : Vec3) (j1 j2 : Q) (rnd : Vec3) (st : State) :
  reachable solver trimesh_throws st -> diceTemplate st = Some tpl ->
  let st1 := rollClick solver cam dir j1 j2 rnd st in
  timers st1 = timers st ++ [mkTimer (clock_now st + 90000) (body_counter st)]
  /\ forall k st2,
       (k < length (timers st))%nat ->
       handle solver trimesh_throws (EvTimeout k) st1 = Some st2 ->
       diceObjects st2 = diceObjects st1
       /\ world_bodies st2 = world_bodies st1
       /\ scene st2 = scene st1.
Proof.
  intros R Ht st1. pose proof (reachable_wf _ _ st R) as W.
  destruct (rollClick_shape tpl cam dir j1 j2 rnd st W Ht)
    as (Hd & _ & _ & Htm & _).
  fold st1 in Hd, Htm. split; [exact Htm|].
  intros k st2 Hk Hh. simpl in Hh. rewrite Htm in Hh.
  rewrite nth_error_app1 in Hh by exact Hk.
  destruct (nth_error (timers st) k) as [tm|] eqn:Hn; [|discriminate].
  destruct (Num.leb _ _); [|discriminate]. inversion Hh.
  assert (Hold : (t_body tm < body_counter st)%nat).
  { apply (wf_timers_fresh st W). eapply nth_error_In; eauto. }
  unfold timeout_callback. cbn [set_timers diceObjects].
  rewrite Hd. cbn [findIndex_body d_body].
  assert (E : Nat.eqb (body_counter st) (t_body tm) = false)
    by (apply Nat.eqb_neq; lia).
  rewrite E. cbn [diceObjects world_bodies scene]. repeat split; assumption.
Qed.


(** ** What [syncAll] writes *)

Lemma sync_fold_untouched (bs : nat -> Body) (l : list Die) :
  forall ms i, ~ In i (map d_mesh l) ->
    fold_left (sync_one bs) l ms i = ms i.
Proof.
  clear solver trimesh_throws.
  induction l as [|x t IH]; intros ms i H; [reflexivity|].
  cbn [fold_left]. cbn [map] in H.
  rewrite IH by (intros Hin; apply H; now right).
  unfold sync_one. apply upd_other. intros E. apply H. left. now symmetry.
Qed.

Lemma sync_fold_keeps_shape (bs : nat -> Body) (l : list Die) :
  forall ms i,
    m_size (fold_left (sync_one bs) l ms i) = m_size (ms i)
    /\ m_geometry (fold_left (sync_one bs) l ms i) = m_geometry (ms i).
Proof.
  induction l as [|x t IH]; intros ms i; [split; reflexivity|].
  cbn [fold_left]. destruct (IH (sync_one bs ms x) i) as [Hs Hg].
  rewrite Hs, Hg. unfold sync_one, upd.
  destruct (Nat.eqb i (d_mesh x)) eqn:E; [|split; reflexivity].
  apply Nat.eqb_eq in E. subst i. split; reflexivity.
Qed.

(** X15.  [syncAll] writes nothing but the position and orientation of
    the visuals of the live dice: a visual that belongs to no live die
    is left as it is, the measured extent of every visual is kept, and
    the bodies, the world, the scene, the live-dice array and the
    timers are unchanged. *)
Theorem syncAll_writes_only_live_transforms (st : State) :
  (forall i, ~ In i (map d_mesh (diceObjects st)) ->
     meshes (syncAll st) i = meshes st i)
  /\ (forall i, m_size (meshes (syncAll st) i) = m_size (meshes st i)
                /\ m_geometry (meshes (syncAll st) i) = m_geometry (meshes st i))
  /\ syncAll st = set_meshes (meshes (syncAll st)) st.
Proof.
  clear solver trimesh_throws.
  split; [|split].
  - intros i Hi. unfold syncAll. cbn [set_meshes meshes].
    apply sync_fold_untouched. exact Hi.
  - intros i. unfold syncAll. cbn [set_meshes meshes].
    apply sync_fold_keeps_shape.
  - reflexivity.
Qed.


(** ** Spawning and removing again *)

Lemma remove_first_snoc_absent {A} (eqb : A -> A -> bool)
    (eqb_eq : forall a b, eqb a b = true <-> a = b) (x : A) (l : list A) :
  ~ In x l -> remove_first eqb x (l ++ [x]) = l.
Proof.
  clear solver trimesh_throws.
  induction l as [|y t IH]; intros H; cbn [app remove_first].
  - assert (E : eqb x x = true) by now apply eqb_eq. now rewrite E.
  - destruct (eqb x y) eqn:E.
    + apply eqb_eq in E. subst. exfalso. apply H. now left.
    + f_equal. apply IH. intros Hin. apply H. now right.
Qed.

Lemma clear_loop_lists (l : list Die) :
  forall st, diceObjects st = l ->
    world_bodies (clear_loop (length l) st)
      = fold_left (fun w d => removeBody (d_body d) w) (rev l) (world_bodies st)
    /\ scene (clear_loop (length l) st)
      = fold_left (fun c d => scene_remove (NDie (d_mesh d)) c) (rev l) (scene st)
    /\ diceObjects (clear_loop (length l) st) = []
    /\ timers (clear_loop (length l) st) = timers st.
Proof.
  clear solver trimesh_throws.
  induction l as [|x l' IH] using rev_ind; intros st Hl.
  - cbn. repeat split; try reflexivity. exact Hl.
  - rewrite length_app, Nat.add_1_r. cbn [clear_loop].
    rewrite Hl, pop_snoc. rewrite rev_app_distr. cbn [rev app fold_left].
    match goal with |- context [clear_loop _ ?s] => set (st3 := s) end.
    destruct (IH st3 eq_refl) as (Hw & Hs & Hd & Ht).
    rewrite Hw, Hs, Hd, Ht. repeat split.
Qed.

Lemma findIndex_body_snoc (b : nat) (l : list Die) (x : Die) :
  (forall d, In d l -> d_body d <> b) -> d_body x = b ->
  findIndex_body b (l ++ [x]) = Some (length l).
Proof.
  clear solver trimesh_throws.
  intros Hl Hx. induction l as [|y t IH]; cbn [app findIndex_body length].
  - apply Nat.eqb_eq in Hx. now rewrite Hx.
  - assert (E : Nat.eqb (d_body y) b = false)
      by (apply Nat.eqb_neq, Hl; now left).
    rewrite E, IH; [reflexivity|].
    intros d Hd. apply Hl. now right.
Qed.

(** X16.  In a state of the script with the template loaded, spawning a
    die and then clearing leaves the bodies of the world and the
    children of the scene exactly as clearing alone would have left
    them, in the same order: when no die was live they are back to what
    they were before the spawn.  Only the removal timer of the spawned
    die stays behind. *)
Theorem spawn_then_clear_restores_world_and_scene
    (tpl : Template) (position : Vec3) (quaternion : Quat)
    (velocity : option Vec3) (rnd : Vec3) (st : State) :
  wf st -> diceTemplate st = Some tpl ->
  let st' := fst (fst (spawnDie solver position quaternion velocity rnd st)) in
  diceObjects (clearAllDice st') = []
  /\ world_bodies (clearAllDice st') = world_bodies (clearAllDice st)
  /\ scene (clearAllDice st') = scene (clearAllDice st)
  /\ timers (clearAllDice st')
     = timers st ++ [mkTimer (clock_now st + 90000) (body_counter st)]
  /\ (diceObjects st = [] ->
      world_bodies (clearAllDice st') = world_bodies st
      /\ scene (clearAllDice st') = scene st).
Proof.
  intros W Ht st'.
  destruct (spawnDie_shape solver tpl position quaternion velocity rnd st Ht W)
    as [Hs _]. fold st' in Hs.
  assert (P : diceObjects st' = diceObjects st ++
                [mkDie (mesh_counter st) (body_counter st) (clock_now st)
                       (vy (spawn_halfExtents tpl quaternion))]
              /\ world_bodies st' = world_bodies st ++ [body_counter st]
              /\ scene st' = scene st ++ [NDie (mesh_counter st)]
              /\ timers st'
                 = timers st ++ [mkTimer (clock_now st + 90000) (body_counter st)])
    by (rewrite Hs; repeat split).
  destruct P as (Pd & Pw & Pc & Pt).
  destruct (clear_loop_lists (diceObjects st') st' eq_refl) as (Hw & Hc & Hd & Htm).
  destruct (clear_loop_lists (diceObjects st) st eq_refl) as (Hw0 & Hc0 & _ & _).
  unfold clearAllDice.
  assert (Ew : world_bodies (clear_loop (length (diceObjects st')) st')
               = world_bodies (clear_loop (length (diceObjects st)) st)).
  { rewrite Hw, Hw0, Pd, Pw, rev_app_distr. cbn [rev app fold_left d_body].
    unfold removeBody at 2.
    rewrite (remove_first_snoc_absent Nat.eqb Nat.eqb_eq)
      by (apply fresh_body_absent, W).
    reflexivity. }
  assert (Ec : scene (clear_loop (length (diceObjects st')) st')
               = scene (clear_loop (length (diceObjects st)) st)).
  { rewrite Hc, Hc0, Pd, Pc, rev_app_distr. cbn [rev app fold_left d_mesh].
    unfold scene_remove at 2.
    rewrite (remove_first_snoc_absent node_eqb node_eqb_eq)
      by (apply fresh_mesh_absent, W).
    reflexivity. }
  split; [exact Hd|]. split; [exact Ew|]. split; [exact Ec|].
  split; [rewrite Htm; exact Pt|].
  intros E0. rewrite Ew, Ec, E0. split; reflexivity.
Qed.

(** X17.  In a state of the script with the template loaded, spawning a
    die, letting 90 000 ms pass and running the timer the spawn set
    brings the live-dice array, the bodies of the world, the children
    of the scene and the pending timers back to exactly what they were
    before the spawn. *)
Theorem spawn_then_timeout_restores_the_collections
    (tpl : Template) (position : Vec3) (quaternion : Quat)
    (velocity : option Vec3) (rnd : Vec3) (st : State) :
  wf st -> diceTemplate st = Some tpl ->
  let st' := fst (fst (spawnDie solver position quaternion velocity rnd st)) in
  exists st2,
    run solver trimesh_throws
        [EvElapse 90000; EvTimeout (length (timers st))] st' = Some st2
    /\ diceObjects st2 = diceObjects st
    /\ world_bodies st2 = world_bodies st
    /\ scene st2 = scene st
    /\ timers st2 = timers st.
Proof.
  intros W Ht st'.
  destruct (spawnDie_shape solver tpl position quaternion velocity rnd st Ht W)
    as [Hs _]. fold st' in Hs.
  assert (P : diceObjects st' = diceObjects st ++
                [mkDie (mesh_counter st) (body_counter st) (clock_now st)
                       (vy (spawn_halfExtents tpl quaternion))]
              /\ world_bodies st' = world_bodies st ++ [body_counter st]
              /\ scene st' = scene st ++ [NDie (mesh_counter st)]
              /\ timers st'
                 = timers st ++ [mkTimer (clock_now st + 90000) (body_counter st)]
              /\ clock_now st' = clock_now st)
    by (rewrite Hs; repeat split).
  destruct P as (Pd & Pw & Pc & Pt & Pn).
  assert (Hfresh : forall d, In d (diceObjects st) -> d_body d <> body_counter st).
  { intros d Hd. apply (wf_dice_fresh st W) in Hd. lia. }
  cbn [run handle]. unfold Num.leb at 1.
  assert (E90 : Qle_bool 0 90000 = true) by reflexivity.
  rewrite E90. cbn [set_clock_now timers clock_now].
  rewrite Pt, Pn.
  rewrite nth_error_app2 by lia. rewrite Nat.sub_diag. cbn [nth_error t_due t_body].
  assert (Edue : Num.leb (clock_now st + 90000) (clock_now st + 90000) = true)
    by (apply Qle_bool_iff; lra).
  rewrite Edue. rewrite splice1_app. cbn [app].
  eexists. split; [reflexivity|].
  unfold timeout_callback. cbn [set_timers set_clock_now diceObjects].
  rewrite Pd.
  rewrite (findIndex_body_snoc (body_counter st) (diceObjects st)
             (mkDie (mesh_counter st) (body_counter st) (clock_now st)
                    (vy (spawn_halfExtents tpl quaternion)))
             Hfresh eq_refl).
  rewrite nth_error_app2 by lia. rewrite Nat.sub_diag. cbn [nth_error].
  cbn [set_diceObjects set_scene set_world_bodies set_timers set_clock_now
       diceObjects world_bodies scene timers d_mesh].
  rewrite Pw, Pc, ?Pd, splice1_app.
  unfold removeBody, scene_remove.
  rewrite (remove_first_snoc_absent Nat.eqb Nat.eqb_eq)
    by (apply fresh_body_absent, W).
  rewrite (remove_first_snoc_absent node_eqb node_eqb_eq)
    by (apply fresh_mesh_absent, W).
  rewrite !app_nil_r. repeat split.
Qed.

End MoreProperties.

(** * The script at work on concrete inputs *)

Lemma loaded_reachable : reachable free_fall index_out_of_range loaded.
Proof.
  apply (reach_step _ _ (loadStage index_out_of_range table_stage initial)
           loaded (EvTemplateLoaded unit_die)); [|reflexivity].
  apply (reach_step _ _ initial _ (EvStageLoaded table_stage));
    [apply reach_initial|reflexivity].
Defined.

Lemma after_click_reachable : reachable free_fall index_out_of_range after_click.
Proof.
  apply (reach_step _ _ loaded after_click
           (EvClick camera looking_down 0.5 0.5 mid_draws));
    [apply loaded_reachable|reflexivity].
Defined.

Lemma after_wait_reachable : reachable free_fall index_out_of_range after_wait.
Proof.
  apply (reach_step _ _ after_click after_wait (EvElapse 90000));
    [apply after_click_reachable|reflexivity].
Defined.

Lemma loaded_wf : wf loaded.
Proof. exact (reachable_wf _ _ _ loaded_reachable). Defined.

Lemma one_resting_die_wf : wf one_resting_die.
Proof.
  constructor; simpl.
  - repeat constructor; simpl; intuition discriminate.
  - intros b [H|[H|[]]]; subst; lia.
  - repeat constructor; simpl; intuition discriminate.
  - intros m [H|[H|[]]]; inversion H; lia.
  - repeat constructor; simpl; tauto.
  - repeat constructor; simpl; tauto.
  - intros d [H|[]]; subst; simpl; lia.
  - intros d [H|[]]; subst; simpl; tauto.
  - intros d [H|[]]; subst; left; reflexivity.
  - intros t [H|[]]; subst; simpl; lia.
  - repeat constructor; simpl; tauto.
  - intros tpl H. inversion H. reflexivity.
Defined.

(** ** C1 *)

(** On the stage whose top is at 2.0, with no live die and a unit die
    (half-height 0.5), a click aimed at (0, _, 0) creates the body at
    height 4, not at 2.0 + 0.5 + 0.02; and a die requested at height 0
    starts at 2.52 while a die requested at height 10 starts at 10, so
    no fixed clearance whatever gives the spawn height of every die
    without neighbours. *)
Lemma spawn_height_is_not_floor_plus_fixed_clearance :
  stageTopY click_state = 2.0
  /\ diceObjects click_state = []
  /\ vx (b_position (bodies (pl_state click_placement) (pl_body click_placement))) == 0
  /\ vz (b_position (bodies (pl_state click_placement) (pl_body click_placement))) == 0
  /\ vy (b_position (bodies (pl_state click_placement) (pl_body click_placement))) == 4
  /\ ~ vy (b_position (bodies (pl_state click_placement) (pl_body click_placement)))
       == 2.0 + 0.5 + 0.02
  /\ ~ exists c : Q, forall y : Q,
         vy (b_position (bodies (pl_state (placement_at y)) (pl_body (placement_at y))))
         == 2.0 + 0.5 + c.
Proof.
  split; [reflexivity|]. split; [reflexivity|].
  split; [vm_compute; reflexivity|]. split; [vm_compute; reflexivity|].
  split; [vm_compute; reflexivity|].
  split; [intros H; vm_compute in H; discriminate|].
  intros [c H].
  pose proof (H 0) as H0. pose proof (H 10) as H10.
  assert (E0 : vy (b_position (bodies (pl_state (placement_at 0))
                                      (pl_body (placement_at 0)))) == 2.52)
    by (vm_compute; reflexivity).
  assert (E10 : vy (b_position (bodies (pl_state (placement_at 10))
                                       (pl_body (placement_at 10)))) == 10)
    by (vm_compute; reflexivity).
  rewrite E0 in H0. rewrite E10 in H10. lra.
Qed.

Lemma spawn_height_without_neighbours_witness :
  wf loaded
  /\ (forall d, In d (diceObjects loaded) ->
        nearby (meshes loaded) (mkVec3 0 0 0)
               (spawn_horizRadius unit_template quat_identity) d = false)
  /\ vy (b_position (bodies (pl_state (placement_at 0)) (pl_body (placement_at 0))))
     == stageTopY loaded + vy (spawn_halfExtents unit_template quat_identity) + 0.02.
Proof.
  assert (N : forall d, In d (diceObjects loaded) ->
                nearby (meshes loaded) (mkVec3 0 0 0)
                       (spawn_horizRadius unit_template quat_identity) d = false)
    by (intros d []).
  split; [exact loaded_wf|]. split; [exact N|].
  destruct (spawn_height_without_neighbours unit_template (mkVec3 0 0 0)
              quat_identity None mid_draws loaded loaded_wf N)
    as (_ & _ & _ & _ & H & _).
  apply H. vm_compute. discriminate.
Defined.

(** ** C2 *)

Lemma falling_die_reachable : reachable free_fall index_out_of_range falling_die.
Proof.
  exact (frames_reachable free_fall index_out_of_range _ after_click
           after_click_reachable).
Defined.

(** The die of the first click is in the air, a fifth of a second into
    its fall: its body is at about 3.671 over a stage top at 2.0 and
    falls at 2.455 m/s, and its visual is where its body is.  A second
    unit die is spawned above it, thrown downwards at 2 m/s.  The floor
    is the top of the falling die, about 4.171, so the computed safe
    floor for the new body is about 4.671 and the body is created 0.02
    above it.  The six steps bring it down to about 4.577, which the
    second check, comparing with 2.0 + 0.5 + 0.05, leaves alone: the
    body ends the call below the computed safe floor.  Nothing touches
    anything on the way: the first die falls faster than the second, so
    the gap between the two boxes widens from 0.02 to about 0.043, and
    the first die is still a unit above the stage at the end. *)
Lemma settle_check_ignores_nearby_dice :
  reachable free_fall index_out_of_range falling_die
  /\ diceObjects falling_die = [mkDie 0 2 0 (1 / 2)]
  /\ stageTopY falling_die = 2.0
  /\ vy (b_position (bodies falling_die 2)) == 4405727 # 1200000
  /\ vy (b_velocity (bodies falling_die 2)) == -2.455
  /\ m_position (meshes falling_die 0) = b_position (bodies falling_die 2)
  /\ spawn_floor unit_template overhead_position quat_identity falling_die
     == 5005727 # 1200000
  /\ snd overhead_spawn = Some (mkSpawned 1 3)
  /\ vy (snd (fst overhead_spawn))
     == spawn_floor unit_template overhead_position quat_identity falling_die
        + vy (spawn_halfExtents unit_template quat_identity) + 0.02
  /\ vy (b_position (bodies (fst (fst overhead_spawn)) 3)) == 2746271 # 600000
  /\ vy (b_position (bodies (fst (fst overhead_spawn)) 3))
     < spawn_floor unit_template overhead_position quat_identity falling_die
       + vy (spawn_halfExtents unit_template quat_identity)
  /\ vy (b_position (bodies (fst (fst overhead_spawn)) 2)) + 0.5 + 0.04
     < vy (b_position (bodies (fst (fst overhead_spawn)) 3)) - 0.5
  /\ stageTopY falling_die + 1
     < vy (b_position (bodies (fst (fst overhead_spawn)) 2)) - 0.5.
Proof.
  split; [exact falling_die_reachable|].
  split; [reflexivity|]. split; [reflexivity|].
  split; [vm_compute; reflexivity|]. split; [vm_compute; reflexivity|].
  split; [vm_compute; reflexivity|]. split; [vm_compute; reflexivity|].
  split; [reflexivity|]. split; [vm_compute; reflexivity|].
  split; [vm_compute; reflexivity|]. split; [vm_compute; reflexivity|].
  split; vm_compute; reflexivity.
Qed.

Lemma settle_lifts_above_stage_witness :
  diceTemplate falling_die = Some unit_template
  /\ stageTopY falling_die + vy (spawn_halfExtents unit_template quat_identity)
       + 0.05
     <= vy (b_position (bodies (fst (fst overhead_spawn)) 3)).
Proof.
  split; [reflexivity|].
  destruct (settle_lifts_above_stage free_fall unit_template overhead_position
              quat_identity (Some (mkVec3 0 (-2) 0)) mid_draws falling_die
              eq_refl)
    as (_ & _ & H & _).
  exact H.
Defined.

(** ** C3 *)

Lemma placement_floor_is_highest_nearby_top_witness :
  wf one_resting_die
  /\ spawn_floor unit_template (mkVec3 0.3 0 0.2) quat_identity one_resting_die
     == 2.6.
Proof.
  split; [exact one_resting_die_wf|].
  destruct (placement_floor_is_highest_nearby_top unit_template
              (mkVec3 0.3 0 0.2) quat_identity None mid_draws one_resting_die
              one_resting_die_wf)
    as (_ & _ & _ & _ & _ & _ & H).
  apply (H (mkDie 0 1 0 (1 / 2))).
  - reflexivity.
  - vm_compute. reflexivity.
  - vm_compute. reflexivity.
  - vm_compute. reflexivity.
Defined.

(** ** C4 *)

Lemma spawn_never_embedded_witness :
  wf one_resting_die
  /\ diceTemplate one_resting_die = Some unit_template
  /\ spawn_floor unit_template crowded_position quat_identity one_resting_die
       + vy (spawn_halfExtents unit_template quat_identity)
     <= vy (b_position
              (bodies (pl_state (spawn_place unit_template crowded_position
                                   quat_identity None mid_draws one_resting_die))
                      (pl_body (spawn_place unit_template crowded_position
                                   quat_identity None mid_draws one_resting_die)))).
Proof.
  split; [exact one_resting_die_wf|]. split; [reflexivity|].
  destruct (spawn_never_embedded free_fall unit_template crowded_position
              quat_identity None mid_draws one_resting_die
              one_resting_die_wf eq_refl)
    as (_ & _ & H & _).
  exact H.
Defined.

(** ** C5 *)

Lemma spawn_before_template_is_rejected_witness :
  diceTemplate initial = None
  /\ snd (spawnDie free_fall (mkVec3 0 5 0) quat_identity None mid_draws initial)
     = None
  /\ diceObjects
       (fst (fst (spawnDie free_fall (mkVec3 0 5 0) quat_identity None
                           mid_draws initial)))
     = diceObjects initial.
Proof.
  split; [reflexivity|].
  pose proof (spawn_before_template_is_rejected free_fall (mkVec3 0 5 0)
                quat_identity None mid_draws initial eq_refl) as H.
  cbv beta iota zeta delta [spawnDie initial diceTemplate] in H.
  destruct H as (H1 & _ & _ & H4 & _).
  split; [exact H1|exact H4].
Defined.

(** ** C6 *)

Lemma clearAllDice_removes_every_live_die_witness :
  reachable free_fall index_out_of_range after_click
  /\ diceObjects after_click <> []
  /\ diceObjects (clearAllDice after_click) = []
  /\ clearAllDice (clearAllDice after_click) = clearAllDice after_click.
Proof.
  split; [exact after_click_reachable|].
  split; [vm_compute; discriminate|].
  destruct (clearAllDice_removes_every_live_die free_fall index_out_of_range
              after_click after_click_reachable)
    as (H1 & _ & _ & H4).
  split; [exact H1|exact H4].
Defined.

(** ** C7 *)

Lemma timed_removal_runs_once_after_90s_witness :
  reachable free_fall index_out_of_range after_wait
  /\ (forall d, In d (diceObjects after_wait) ->
        In (mkTimer (d_born d + 90000) (d_body d)) (timers after_wait))
  /\ exists st' tm,
       handle free_fall index_out_of_range (EvTimeout 0) after_wait = Some st'
       /\ nth_error (timers after_wait) 0 = Some tm
       /\ t_due tm <= clock_now after_wait.
Proof.
  split; [exact after_wait_reachable|].
  destruct (timed_removal_runs_once_after_90s free_fall index_out_of_range
              after_wait after_wait_reachable)
    as (H1 & H2 & _).
  split; [exact H1|].
  assert (E : handle free_fall index_out_of_range (EvTimeout 0) after_wait
              = Some (timeout_callback 2 (set_timers [] after_wait)))
    by reflexivity.
  destruct (H2 0%nat _ E) as (tm & Hn & Hd & _).
  exists (timeout_callback 2 (set_timers [] after_wait)), tm.
  split; [exact E|]. split; [exact Hn|exact Hd].
Defined.

(** ** C8 *)

Lemma sync_copies_body_onto_visual_witness :
  reachable free_fall index_out_of_range after_click
  /\ synced (syncAll after_click)
  /\ synced (animate free_fall 0.016
               (frames free_fall [0.016; 0.016] after_click)).
Proof.
  split; [exact after_click_reachable|].
  destruct (sync_copies_body_onto_visual free_fall index_out_of_range
              after_click after_click_reachable)
    as ((H1 & _) & H2).
  split; [exact H1|].
  apply (H2 [0.016; 0.016] 0.016). reflexivity.
Defined.

(** ** C9 *)

(** On a stage of one mesh the world ends with two bodies, the plane
    first and the body of the mesh last: the plane is not what the
    construction adds once the meshes have been attempted. *)
Lemma ground_plane_is_added_before_the_meshes :
  world_bodies one_mesh_loaded = [0; 1]%nat
  /\ b_shapes (bodies one_mesh_loaded 0) = [Plane]
  /\ b_shapes (bodies one_mesh_loaded 1) <> [Plane]
  /\ b_shapes (bodies one_mesh_loaded (last (world_bodies one_mesh_loaded) 0%nat))
     <> [Plane].
Proof.
  split; [reflexivity|]. split; [reflexivity|].
  split; vm_compute; discriminate.
Qed.

Lemma stage_construction_adds_floor_then_meshes_witness :
  wf initial
  /\ world_bodies (loadStage index_out_of_range table_stage initial) = [0; 1]%nat
  /\ console (loadStage index_out_of_range table_stage initial)
     = [LogStageTop 2.0; WarnTrimeshSkipped; LogStageLoaded].
Proof.
  split; [exact wf_initial|].
  destruct (stage_construction_adds_floor_then_meshes index_out_of_range
              table_stage initial wf_initial)
    as (_ & _ & _ & _ & _ & _ & Hw & _ & Hc).
  split; [exact Hw|exact Hc].
Defined.

(** ** C10 *)

(** A unit die requested at height 0 on the empty stage whose top is at
    2.0: the caller's vector comes back with Y = 2.52, and when
    [spawnDie] returns, before any sync, the clone is at 2.55 and not at
    the requested height 0. *)
Lemma corrective_check_moves_the_clone :
  diceTemplate loaded = Some unit_template
  /\ vy low_position < spawn_minSafeY unit_template low_position quat_identity loaded
  /\ snd low_spawn = Some (mkSpawned 0 2)
  /\ vy (snd (fst low_spawn)) == 2.52
  /\ vy (m_position (meshes (fst (fst low_spawn)) 0)) == 2.55
  /\ ~ vy (m_position (meshes (fst (fst low_spawn)) 0)) == vy low_position.
Proof.
  split; [reflexivity|]. split; [vm_compute; reflexivity|].
  split; [reflexivity|]. split; [vm_compute; reflexivity|].
  split; [vm_compute; reflexivity|].
  intros H. vm_compute in H. discriminate.
Qed.

Lemma clamp_overwrites_callers_vector_witness :
  wf loaded
  /\ diceTemplate loaded = Some unit_template
  /\ vy low_position < spawn_minSafeY unit_template low_position quat_identity loaded
  /\ snd (fst low_spawn)
     = set_vy low_position
         (spawn_minSafeY unit_template low_position quat_identity loaded).
Proof.
  assert (L : vy low_position
              < spawn_minSafeY unit_template low_position quat_identity loaded)
    by (vm_compute; reflexivity).
  split; [exact loaded_wf|]. split; [reflexivity|]. split; [exact L|].
  destruct (clamp_overwrites_callers_vector free_fall unit_template low_position
              quat_identity None mid_draws loaded loaded_wf eq_refl L)
    as (H & _).
  exact H.
Defined.

(** * Further properties on concrete inputs *)

Lemma after_click_template : diceTemplate after_click = Some unit_template.
Proof. reflexivity. Qed.

Lemma aim_ray_meets_the_plane_witness :
  1e-4 <= Num.abs (vy slanted_ray)
  /\ 0 < (2.0 - vy camera) / vy slanted_ray
  /\ vy (screenToWorldAtY camera slanted_ray 2.0) == 2.0.
Proof.
  assert (H1 : 1e-4 <= Num.abs (vy slanted_ray))
    by (vm_compute; discriminate).
  assert (H2 : 0 < (2.0 - vy camera) / vy slanted_ray)
    by (vm_compute; reflexivity).
  split; [exact H1|]. split; [exact H2|].
  apply (aim_ray_meets_the_plane camera slanted_ray 2.0 H1 H2).
Defined.

Lemma aim_point_is_ahead_of_the_camera_witness :
  (2.0 - vy camera) / vy rising_ray <= 0
  /\ screenToWorldAtY camera rising_ray 2.0 = add_scaled camera rising_ray 3.0.
Proof.
  assert (H : (2.0 - vy camera) / vy rising_ray <= 0)
    by (vm_compute; discriminate).
  split; [exact H|].
  apply (aim_point_is_ahead_of_the_camera camera rising_ray 2.0).
  right. exact H.
Defined.

Lemma sequential_indices_are_consecutive_triples_witness :
  (1 < 3)%nat /\ sequential_indices 7 = seq 0 9.
Proof.
  assert (H : (1 < 3)%nat) by lia.
  split; [exact H|].
  exact (proj1 (sequential_indices_are_consecutive_triples 2 1 H)).
Defined.

Lemma collision_input_expands_the_index_witness :
  n_isMesh table_top = true
  /\ Forall (fun i => (i < 4)%nat) [0; 1; 2; 0; 2; 3]%nat
  /\ exists vertices,
       collision_input table_top = Some (vertices, sequential_indices 6)
       /\ length vertices = 18%nat.
Proof.
  assert (F : Forall (fun i => (i < 4)%nat) [0; 1; 2; 0; 2; 3]%nat)
    by (repeat constructor).
  split; [reflexivity|]. split; [exact F|].
  destruct (collision_input_expands_the_index table_top
              (mkGeometry (Some [0; 1; 2; 0; 2; 3]%nat)
                 (Some [mkVec3 (-1) 0.5 (-1); mkVec3 1 0.5 (-1);
                        mkVec3 1 0.5 1; mkVec3 (-1) 0.5 1]))
              [mkVec3 (-1) 0.5 (-1); mkVec3 1 0.5 (-1);
               mkVec3 1 0.5 1; mkVec3 (-1) 0.5 1]
              [0; 1; 2; 0; 2; 3]%nat
              eq_refl eq_refl eq_refl eq_refl F)
    as (vertices & H1 & H2 & _).
  exists vertices. split; [exact H1|exact H2].
Defined.

Lemma at_most_one_die_is_live_witness :
  reachable free_fall index_out_of_range after_click
  /\ (length (diceObjects after_click) <= 1)%nat.
Proof.
  split; [exact after_click_reachable|].
  exact (at_most_one_die_is_live free_fall index_out_of_range after_click
           after_click_reachable).
Defined.

Lemma click_replaces_the_live_dice_by_a_new_one_witness :
  reachable free_fall index_out_of_range after_click
  /\ diceTemplate after_click = Some unit_template
  /\ exists d, diceObjects after_second_click = [d]
               /\ d_born d = clock_now after_click.
Proof.
  split; [exact after_click_reachable|]. split; [exact after_click_template|].
  destruct (click_replaces_the_live_dice_by_a_new_one free_fall
              index_out_of_range unit_template camera looking_down 0.25 0.75
              mid_draws after_click after_click_reachable after_click_template)
    as (d & H1 & H2 & _).
  exists d. split; [exact H1|exact H2].
Defined.

Lemma live_die_is_registered_exactly_once_witness :
  reachable free_fall index_out_of_range after_click
  /\ In first_die (diceObjects after_click)
  /\ exists l1 l2, world_bodies after_click = l1 ++ d_body first_die :: l2
                   /\ ~ In (d_body first_die) l1
                   /\ ~ In (d_body first_die) l2.
Proof.
  assert (H : In first_die (diceObjects after_click))
    by (vm_compute; left; reflexivity).
  split; [exact after_click_reachable|]. split; [exact H|].
  exact (proj1 (live_die_is_registered_exactly_once free_fall
                  index_out_of_range after_click first_die
                  after_click_reachable H)).
Defined.

Lemma stage_bodies_are_never_removed_witness :
  reachable free_fall index_out_of_range after_click
  /\ handle free_fall index_out_of_range (EvKey "r") after_click
     = Some (keydown "r" after_click)
  /\ In NStage (scene after_click)
  /\ In NStage (scene (keydown "r" after_click)).
Proof.
  assert (S : In NStage (scene after_click))
    by (vm_compute; left; reflexivity).
  split; [exact after_click_reachable|]. split; [reflexivity|].
  split; [exact S|].
  exact (proj2 (stage_bodies_are_never_removed free_fall index_out_of_range
                  after_click (keydown "r" after_click) (EvKey "r")
                  after_click_reachable eq_refl) S).
Defined.

Lemma spawned_body_spin_is_bounded_witness :
  0 <= vx mid_draws < 1
  /\ -5 <= vx (b_angularVelocity
                 (bodies (pl_state (placement_at 0)) (pl_body (placement_at 0))))
     < 5.
Proof.
  assert (H : 0 <= 0.5 < 1) by (split; [vm_compute; discriminate|reflexivity]).
  split; [exact H|].
  destruct (spawned_body_spin_is_bounded unit_template (mkVec3 0 0 0)
              quat_identity None mid_draws loaded H H H)
    as (_ & _ & _ & Hx & _).
  exact Hx.
Defined.

Lemma click_launch_is_a_small_horizontal_jitter_witness :
  diceTemplate loaded = Some unit_template
  /\ 0 <= 0.25 < 1
  /\ vy (click_velocity 0.25 0.75) = 0
  /\ -0.2 <= vx (click_velocity 0.25 0.75) < 0.2.
Proof.
  assert (H1 : 0 <= 0.25 < 1) by (split; [vm_compute; discriminate|reflexivity]).
  assert (H2 : 0 <= 0.75 < 1) by (split; [vm_compute; discriminate|reflexivity]).
  split; [reflexivity|]. split; [exact H1|].
  destruct (click_launch_is_a_small_horizontal_jitter free_fall unit_template
              camera looking_down 0.25 0.75 mid_draws loaded eq_refl H1 H2)
    as (_ & _ & Hy & Hx & _).
  split; [exact Hy|exact Hx].
Defined.

Lemma spawn_prerolls_at_most_six_steps_witness :
  diceTemplate loaded = Some unit_template
  /\ world_steps (fst (fst low_spawn)) = (world_steps loaded + 6)%nat.
Proof.
  split; [reflexivity|].
  destruct (spawn_prerolls_at_most_six_steps free_fall unit_template
              low_position quat_identity None mid_draws loaded eq_refl)
    as (_ & H & _).
  apply H. intros. reflexivity.
Defined.

Lemma r_key_clears_and_leaves_harmless_timers_witness :
  reachable free_fall index_out_of_range after_click
  /\ toLowerCase "R" = "r"%string
  /\ diceObjects (keydown "R" after_click) = [].
Proof.
  split; [exact after_click_reachable|]. split; [reflexivity|].
  destruct (r_key_clears_and_leaves_harmless_timers free_fall
              index_out_of_range "R" after_click after_click_reachable)
    as (_ & H).
  destruct (H eq_refl) as (H1 & _). exact H1.
Defined.

Lemma timers_of_replaced_dice_spare_the_new_die_witness :
  reachable free_fall index_out_of_range after_click
  /\ diceTemplate after_click = Some unit_template
  /\ timers after_second_click
     = timers after_click
       ++ [mkTimer (clock_now after_click + 90000) (body_counter after_click)].
Proof.
  split; [exact after_click_reachable|]. split; [exact after_click_template|].
  exact (proj1 (timers_of_replaced_dice_spare_the_new_die free_fall
                  index_out_of_range unit_template camera looking_down
                  0.25 0.75 mid_draws after_click after_click_reachable
                  after_click_template)).
Defined.

Lemma spawn_then_clear_restores_world_and_scene_witness :
  wf loaded
  /\ diceTemplate loaded = Some unit_template
  /\ diceObjects loaded = []
  /\ world_bodies (clearAllDice (fst (fst low_spawn))) = world_bodies loaded
  /\ scene (clearAllDice (fst (fst low_spawn))) = scene loaded.
Proof.
  split; [exact loaded_wf|]. split; [reflexivity|]. split; [reflexivity|].
  destruct (spawn_then_clear_restores_world_and_scene free_fall unit_template
              low_position quat_identity None mid_draws loaded loaded_wf eq_refl)
    as (_ & _ & _ & _ & H).
  exact (H eq_refl).
Defined.

Lemma spawn_then_timeout_restores_the_collections_witness :
  wf loaded
  /\ diceTemplate loaded = Some unit_template
  /\ exists st2,
       run free_fall index_out_of_range
           [EvElapse 90000; EvTimeout (length (timers loaded))]
           (fst (fst low_spawn)) = Some st2
       /\ diceObjects st2 = diceObjects loaded
       /\ world_bodies st2 = world_bodies loaded.
Proof.
  split; [exact loaded_wf|]. split; [reflexivity|].
  destruct (spawn_then_timeout_restores_the_collections free_fall
              index_out_of_range unit_template low_position quat_identity None
              mid_draws loaded loaded_wf eq_refl)
    as (st2 & H1 & H2 & H3 & _).
  exists st2. split; [exact H1|]. split; [exact H2|exact H3].
Defined.
